(** * reward_rate.py: the staking reward-rate calculator

    A shallow embedding of [script/reward_rate.py] and of the parts of the
    Python runtime the script calls ([str.strip], [str.endswith], slicing,
    [float], [int], [*], [/], [//], [input], [print]).

    - A Python [str] is a [string]; the model covers the strings whose code
      points are below 256.
    - A Python [float] is an IEEE-754 binary64 value, a [spec_float] of the
      Standard Library with [prec = 53] and [emax = 1024]; every operation
      rounds to nearest, ties to even.
    - A Python [int] is a [Z].
    - An exception that reaches the top level is the [Raise] of [result]. *)

From Stdlib Require Import ZArith NArith Bool List Ascii String Lia.
From Stdlib Require Import DecimalString.
From Stdlib Require Import Floats.SpecFloat.
Import ListNotations.

Local Open Scope string_scope.
Local Open Scope Z_scope.

(** ** The Python runtime *)

Module Py.

(** The exceptions the script can meet. *)
Inductive exn : Type :=
| ValueError
| OverflowError
| ZeroDivisionError
| EOFError.

Inductive result (A : Type) : Type :=
| Ok (a : A)
| Raise (e : exn).

Arguments Ok {A} a.
Arguments Raise {A} e.

Definition bind {A B : Type} (r : result A) (k : A -> result B) : result B :=
  match r with
  | Ok a => k a
  | Raise e => Raise e
  end.

(** *** Strings *)

Definition code (c : ascii) : N := N_of_ascii c.

(** [Py_UNICODE_ISSPACE] below code point 256: what [str.strip] removes. *)
Definition is_space (c : ascii) : bool :=
  let n := code c in
  ((9 <=? n) && (n <=? 13) || (28 <=? n) && (n <=? 32)
   || (n =? 133) || (n =? 160))%N.

(** [Py_ISSPACE]: the C-locale white space that [float] skips. *)
Definition is_c_space (c : ascii) : bool :=
  let n := code c in
  ((9 <=? n) && (n <=? 13) || (n =? 32))%N.

Definition is_digit (c : ascii) : bool :=
  let n := code c in ((48 <=? n) && (n <=? 57))%N.

Definition digit_val (c : ascii) : Z := Z.of_N (code c) - 48.

Fixpoint all_chars (p : ascii -> bool) (s : string) : bool :=
  match s with
  | EmptyString => true
  | String c r => p c && all_chars p r
  end.

Fixpoint lstrip_with (p : ascii -> bool) (s : string) : string :=
  match s with
  | EmptyString => EmptyString
  | String c r => if p c then lstrip_with p r else s
  end.

Fixpoint rstrip_with (p : ascii -> bool) (s : string) : string :=
  match s with
  | EmptyString => EmptyString
  | String c r =>
      match rstrip_with p r with
      | EmptyString => if p c then EmptyString else String c EmptyString
      | r' => String c r'
      end
  end.

(** [s.strip()] *)
Definition strip (s : string) : string :=
  rstrip_with is_space (lstrip_with is_space s).

(** [s.endswith(suffix)] *)
Definition endswith (s suffix : string) : bool :=
  let n := String.length s in
  let k := String.length suffix in
  if (n <? k)%nat then false
  else String.eqb (substring (n - k) k s) suffix.

(** [s[:stop]]: a negative [stop] counts from the end, and the bound is
    clipped to the string. *)
Definition slice_to (s : string) (stop : Z) : string :=
  let n := Z.of_nat (String.length s) in
  let j := if stop <? 0 then Z.max 0 (stop + n) else Z.min stop n in
  substring 0 (Z.to_nat j) s.

Fixpoint join (sep : string) (l : list string) : string :=
  match l with
  | [] => EmptyString
  | [x] => x
  | x :: r => x ++ sep ++ join sep r
  end.

(** *** Floats *)

Definition prec : Z := 53.
Definition emax : Z := 1024.

Definition float : Type := spec_float.

Definition is_finite (x : float) : bool :=
  match x with
  | S754_zero _ | S754_finite _ _ _ => true
  | S754_infinity _ | S754_nan => false
  end.

Definition is_nan (x : float) : bool :=
  match x with S754_nan => true | _ => false end.

(** [x < 0.0] *)
Definition is_negative (x : float) : bool :=
  match x with
  | S754_infinity true | S754_finite true _ _ => true
  | _ => false
  end.

(** [x > 0.0] *)
Definition is_positive (x : float) : bool :=
  match x with
  | S754_infinity false | S754_finite false _ _ => true
  | _ => false
  end.

(** The nearest double to [num / den], the sign given apart. *)
Definition round_ratio (s : bool) (num den : positive) : float :=
  let '(q, e, l) := SFdiv_core_binary prec emax (Zpos num) 0 (Zpos den) 0 in
  binary_round_aux prec emax s q e l.

(** The nearest double to [(-1)^s * m * 10^e]: the value of a decimal
    literal with digits [m] and decimal exponent [e]. *)
Definition of_decimal (s : bool) (m : Z) (e : Z) : float :=
  match m with
  | Zpos p =>
      if 0 <=? e
      then binary_normalize prec emax (if s then - (m * 10 ^ e) else m * 10 ^ e) 0 s
      else round_ratio s p (Z.to_pos (10 ^ (- e)))
  | _ => S754_zero s
  end.

(** The value of an [int] as a float, [PyLong_AsDouble]: rounded to nearest,
    [OverflowError] when the rounded value is out of range. *)
Definition float_of_int (z : Z) : result float :=
  let x := binary_normalize prec emax z 0 false in
  if is_finite x then Ok x else Raise OverflowError.

(** [int(x)], [PyLong_FromDouble]: the integral part, towards zero. *)
Definition int_of_float (x : float) : result Z :=
  match x with
  | S754_zero _ => Ok 0
  | S754_infinity _ => Raise OverflowError
  | S754_nan => Raise ValueError
  | S754_finite s m e =>
      let a := if 0 <=? e then Zpos m * 2 ^ e else Zpos m / 2 ^ (- e) in
      Ok (if s then - a else a)
  end.

(** [x * y] on floats. *)
Definition float_mul (x y : float) : float := SFmul prec emax x y.

(** [x / y] on floats. *)
Definition float_truediv (x y : float) : result float :=
  match y with
  | S754_zero _ => Raise ZeroDivisionError
  | _ => Ok (SFdiv prec emax x y)
  end.

(** [x * n] with a float [x] and an int [n]: the int is converted first. *)
Definition float_mul_int (x : float) (n : Z) : result float :=
  bind (float_of_int n) (fun y => Ok (float_mul x y)).

(** [n * x] with an int [n] and a float [x]. *)
Definition int_mul_float (n : Z) (x : float) : result float :=
  bind (float_of_int n) (fun y => Ok (float_mul y x)).

(** *** [float(s)] on a string

    [PyFloat_FromString]: the string is first brought to ASCII, then the
    underscores are checked and removed, then the C white space at both ends
    is skipped and the rest must be, as a whole, a number that
    [PyOS_string_to_double] reads. *)

Definition is_ascii_str (s : string) : bool :=
  forallb (fun c => (code c <? 128)%N) (list_ascii_of_string s).

(** [_PyUnicode_TransformDecimalAndSpaceToASCII] on a string that is not
    ASCII: a space of Unicode becomes a blank, and the first other code point
    from 127 on becomes a question mark that ends the string (no code point
    from 127 to 255 is a decimal digit). *)
Fixpoint transform (s : string) : string :=
  match s with
  | EmptyString => EmptyString
  | String c r =>
      if (code c <? 127)%N then String c (transform r)
      else if is_space c then String " " (transform r)
      else "?"
  end.

Definition to_ascii (s : string) : string :=
  if is_ascii_str s then s else transform s.

(** [_Py_string_to_number_with_underscores]: an underscore is allowed only
    between two digits; [prev] is the character before [s]. *)
Fixpoint remove_underscores (prev : ascii) (s : string) : option string :=
  match s with
  | EmptyString => if Ascii.eqb prev "_" then None else Some EmptyString
  | String c r =>
      if Ascii.eqb c "_" then
        if is_digit prev then remove_underscores c r else None
      else if Ascii.eqb prev "_" && negb (is_digit c) then None
      else option_map (String c) (remove_underscores c r)
  end.

(** The longest prefix of digits, and what follows it. *)
Fixpoint span_digits (s : string) : string * string :=
  match s with
  | EmptyString => (EmptyString, EmptyString)
  | String c r =>
      if is_digit c
      then let '(d, t) := span_digits r in (String c d, t)
      else (EmptyString, s)
  end.

(** The number a string of digits writes, after the digits of [acc]. *)
Fixpoint digits_value (acc : Z) (s : string) : Z :=
  match s with
  | EmptyString => acc
  | String c r => digits_value (10 * acc + digit_val c) r
  end.

Definition take_sign (s : string) : bool * string :=
  match s with
  | String c r =>
      if Ascii.eqb c "-" then (true, r)
      else if Ascii.eqb c "+" then (false, r)
      else (false, s)
  | EmptyString => (false, s)
  end.

Definition is_zero_digit (c : ascii) : bool := Ascii.eqb c "0".

Definition MAX_DIGITS : N := 1000000000.

Definition strlen (s : string) : N := N.of_nat (String.length s).

(** The exponent part that follows the digits: [e] or [E], a sign, and at
    least one digit; without a digit nothing of it is read. *)
Definition read_exponent (s : string) : Z * string :=
  match s with
  | String c r =>
      if Ascii.eqb c "e" || Ascii.eqb c "E" then
        let '(neg, r1) := take_sign r in
        let '(ed, r2) := span_digits r1 in
        match ed with
        | EmptyString => (0, s)
        | _ => (if neg then - digits_value 0 ed else digits_value 0 ed, r2)
        end
      else (0, s)
  | EmptyString => (0, s)
  end.

(** [_Py_dg_strtod]: a sign, digits with at most one point among them (one
    digit at least), and an exponent part; the value is the nearest double,
    an infinity on overflow and a zero on underflow. [None] when nothing is
    read; otherwise the value and the text left unread.

    [ndigits] counts the digits after the leading zeros, [fraclen] those
    after the point; a count above [MAX_DIGITS] is refused. Within that
    bound the clipping of the exponent at 1100000000 does not change the
    rounded value, so the exponent is kept as it is written. *)
Definition dg_strtod (s : string) : option (float * string) :=
  let '(neg, s1) := take_sign s in
  let '(ip, s2) := span_digits s1 in
  let '(fp, s3) :=
    match s2 with
    | String c r => if Ascii.eqb c "." then span_digits r else (EmptyString, s2)
    | EmptyString => (EmptyString, s2)
    end in
  let ip' := lstrip_with is_zero_digit ip in
  let ndigits :=
    match ip' with
    | EmptyString => strlen (lstrip_with is_zero_digit fp)
    | _ => (strlen ip' + strlen fp)%N
    end in
  let fraclen := strlen fp in
  match ip ++ fp with
  | EmptyString => None
  | ds =>
      if ((MAX_DIGITS <? ndigits) || (MAX_DIGITS <? fraclen))%N then None
      else
        let '(ex, s4) := read_exponent s3 in
        Some (of_decimal neg (digits_value 0 ds) (ex - Z.of_N fraclen), s4)
  end.

(** [Py_TOLOWER] *)
Definition to_lower (c : ascii) : ascii :=
  let n := code c in
  if ((65 <=? n) && (n <=? 90))%N then ascii_of_N (n + 32) else c.

(** [case_insensitive_match]: what follows [t] in [s], when [s] starts with
    [t] up to the case of its letters. *)
Fixpoint case_insensitive_match (s t : string) {struct t} : option string :=
  match t with
  | EmptyString => Some s
  | String ct t' =>
      match s with
      | String cs s' =>
          if Ascii.eqb (to_lower cs) ct then case_insensitive_match s' t'
          else None
      | EmptyString => None
      end
  end.

(** [_Py_parse_inf_or_nan] *)
Definition parse_inf_or_nan (s : string) : option (float * string) :=
  let '(neg, s1) := take_sign s in
  match case_insensitive_match s1 "inf" with
  | Some r =>
      match case_insensitive_match r "inity" with
      | Some r' => Some (S754_infinity neg, r')
      | None => Some (S754_infinity neg, r)
      end
  | None =>
      match case_insensitive_match s1 "nan" with
      | Some r => Some (S754_nan, r)
      | None => None
      end
  end.

(** [_PyOS_ascii_strtod] *)
Definition ascii_strtod (s : string) : option (float * string) :=
  match dg_strtod s with
  | Some v => Some v
  | None => parse_inf_or_nan s
  end.

(** [float(s)]: [ValueError] unless the whole text is read. *)
Definition float_of_str (s : string) : result float :=
  match remove_underscores zero (to_ascii s) with
  | None => Raise ValueError
  | Some t =>
      let body := rstrip_with is_c_space (lstrip_with is_c_space t) in
      match ascii_strtod body with
      | Some (x, EmptyString) => Ok x
      | _ => Raise ValueError
      end
  end.

(** The float literal [100.0]. *)
Definition lit_100_0 : float := Eval vm_compute in of_decimal false 1000 (-1).

(** *** Integers *)

(** [a // b] on ints, as [l_divmod] computes it: the truncated quotient,
    lowered by one when the remainder and the divisor differ in sign. *)
Definition floordiv (a b : Z) : result Z :=
  if b =? 0 then Raise ZeroDivisionError
  else
    let q := Z.quot a b in
    let r := Z.rem a b in
    if ((r <? 0) && (0 <? b)) || ((0 <? r) && (b <? 0))
    then Ok (q - 1) else Ok q.

(** [str(n)] on ints. An int that comes from a double has at most 309
    digits, below the limit on int-to-str conversion. *)
Definition str_of_int (n : Z) : string :=
  NilZero.string_of_int (Z.to_int n).

(** *** Standard input and output

    A run reads its lines from [stdin] and leaves a trace: [Prompt p] when
    [input(p)] shows its prompt, [Print l] when [print] writes the line [l]
    and ends it. *)

Inductive event : Type :=
| Prompt (text : string)
| Print (line : string).

Record world : Type := { stdin : list string; trace : list event }.

Definition IO (A : Type) : Type := world -> result A * world.

Definition lift {A : Type} (r : result A) : IO A := fun w => (r, w).

Definition io_bind {A B : Type} (m : IO A) (k : A -> IO B) : IO B :=
  fun w =>
    match m w with
    | (Ok a, w') => k a w'
    | (Raise e, w') => (Raise e, w')
    end.

Definition emit (ev : event) (w : world) : world :=
  {| stdin := stdin w; trace := trace w ++ [ev] |}.

(** [input(prompt)]: the next line without its end; [EOFError] at the end
    of the input. *)
Definition input (prompt : string) : IO string :=
  fun w =>
    let w' := emit (Prompt prompt) w in
    match stdin w' with
    | [] => (Raise EOFError, w')
    | l :: r => (Ok l, {| stdin := r; trace := trace w' |})
    end.

(** What [print] can be given here. *)
Inductive object : Type :=
| Str (s : string)
| Int (n : Z).

Definition str (o : object) : string :=
  match o with
  | Str s => s
  | Int n => str_of_int n
  end.

(** [print] of several arguments: the arguments, a blank between two of them, and the end
    of the line. *)
Definition print (args : list object) : IO unit :=
  fun w => (Ok tt, emit (Print (join " " (map str args))) w).

(** The lines written by [print], in order. *)
Fixpoint printed (t : list event) : list string :=
  match t with
  | [] => []
  | Print l :: r => l :: printed r
  | Prompt _ :: r => printed r
  end.

End Py.

Declare Scope io_scope.
Delimit Scope io_scope with io.
Notation "x <- m ;; k" := (Py.io_bind m (fun x => k))
  (at level 61, m at next level, right associativity) : io_scope.
Notation "m ;; k" := (Py.io_bind m (fun _ => k))
  (at level 61, right associativity) : io_scope.

(** ** The script *)

Module RewardRate.
Import Py.

Definition SECONDS_PER_YEAR : Z := 31536000.
Definition WEI_PER_ETH : Z := 10 ^ 18.

Definition parse_percent (s : string) : result float :=
  let s := strip s in
  let s := if endswith s "%" then strip (slice_to s (-1)) else s in
  bind (float_of_str s) (fun x => float_truediv x lit_100_0).

(** [int(tvl_eth * WEI_PER_ETH)] *)
Definition tvl_wei_of (tvl_eth : float) : result Z :=
  bind (float_mul_int tvl_eth WEI_PER_ETH) int_of_float.

(** [int(tvl_wei * apy)] *)
Definition annual_rewards_wei_of (tvl_wei : Z) (apy : float) : result Z :=
  bind (int_mul_float tvl_wei apy) int_of_float.

(** [annual_rewards_wei // SECONDS_PER_YEAR] *)
Definition reward_rate_wei_per_sec_of (annual_rewards_wei : Z) : result Z :=
  floordiv annual_rewards_wei SECONDS_PER_YEAR.

(** The text that [parse_percent] hands to [float]: its [s] at the
    [return]. *)
Definition percent_text (s : string) : string :=
  let s := strip s in
  if endswith s "%" then strip (slice_to s (-1)) else s.

(** The three assignments in the middle of [main]. *)
Definition rates (tvl_eth apy : float) : result (Z * Z * Z) :=
  bind (tvl_wei_of tvl_eth) (fun tvl_wei =>
  bind (annual_rewards_wei_of tvl_wei apy) (fun annual_rewards_wei =>
  bind (reward_rate_wei_per_sec_of annual_rewards_wei)
    (fun reward_rate_wei_per_sec =>
  Ok (tvl_wei, annual_rewards_wei, reward_rate_wei_per_sec)))).

(** The two reads and the three assignments of [main]. *)
Definition read_rates : IO (Z * Z * Z) :=
  (l1 <- input "expected ETH TVL: " ;;
   tvl_eth <- lift (float_of_str (strip l1)) ;;
   l2 <- input "APY (e.g. 8 or 8%): " ;;
   apy <- lift (parse_percent l2) ;;
   lift (rates tvl_eth apy))%io.

Definition main : IO unit :=
  (v <- read_rates ;;
   let '(tvl_wei, annual_rewards_wei, reward_rate_wei_per_sec) := v in
   print [Str "tvl_wei:"; Int tvl_wei] ;;
   print [Str "annual_rewards_wei:"; Int annual_rewards_wei] ;;
   print [Str "rewardRate (wei/sec):"; Int reward_rate_wei_per_sec] ;;
   print [Str "addPool(address(0),"; Int reward_rate_wei_per_sec; Str ")"])%io.

Definition start (lines : list string) : world :=
  {| stdin := lines; trace := [] |}.

(** A run of the script on the lines [lines] of standard input. *)
Definition run (lines : list string) : result unit * world :=
  main (start lines).

(** The values of [tvl_wei], [annual_rewards_wei] and
    [reward_rate_wei_per_sec] in that run. *)
Definition values (lines : list string) : result (Z * Z * Z) :=
  fst (read_rates (start lines)).

End RewardRate.

(** ** The words of the specification *)

Module Spec.
Import Py.

(** White space only, as [str.strip] sees it. *)
Definition all_space (w : string) : bool := all_chars is_space w.

(** A decimal number: a sign or none, digits with at most one point among
    them and one digit at least, and an exponent part or none, read by an
    automaton over the characters. *)
Inductive dstate : Type :=
| DStart | DSign | DInt | DPoint | DFrac
| DExpMark | DExpSign | DExpDigits | DReject.

Definition dstate_eq_dec (q q' : dstate) : {q = q'} + {q <> q'}.
Proof. decide equality. Defined.

Definition is_sign_char (c : ascii) : bool :=
  Ascii.eqb c "+" || Ascii.eqb c "-".

Definition is_exp_char (c : ascii) : bool :=
  Ascii.eqb c "e" || Ascii.eqb c "E".

Definition dstep (q : dstate) (c : ascii) : dstate :=
  match q with
  | DStart =>
      if is_sign_char c then DSign
      else if is_digit c then DInt
      else if Ascii.eqb c "." then DPoint else DReject
  | DSign =>
      if is_digit c then DInt
      else if Ascii.eqb c "." then DPoint else DReject
  | DInt =>
      if is_digit c then DInt
      else if Ascii.eqb c "." then DFrac
      else if is_exp_char c then DExpMark else DReject
  | DPoint => if is_digit c then DFrac else DReject
  | DFrac =>
      if is_digit c then DFrac
      else if is_exp_char c then DExpMark else DReject
  | DExpMark =>
      if is_sign_char c then DExpSign
      else if is_digit c then DExpDigits else DReject
  | DExpSign => if is_digit c then DExpDigits else DReject
  | DExpDigits => if is_digit c then DExpDigits else DReject
  | DReject => DReject
  end.

Fixpoint drun (q : dstate) (s : string) : dstate :=
  match s with
  | EmptyString => q
  | String c r => drun (dstep q c) r
  end.

Definition daccept (q : dstate) : bool :=
  match q with
  | DInt | DFrac | DExpDigits => true
  | _ => false
  end.

Definition is_decimal_number (s : string) : bool := daccept (drun DStart s).

Fixpoint lower (s : string) : string :=
  match s with
  | EmptyString => EmptyString
  | String c r => String (to_lower c) (lower r)
  end.

(** The names of the infinities and of the NaN, in any case of the letters,
    after a sign or none. *)
Definition is_inf_or_nan (s : string) : bool :=
  let w := lower (snd (take_sign s)) in
  String.eqb w "inf" || String.eqb w "infinity" || String.eqb w "nan".

Fixpoint without_underscores (s : string) : string :=
  match s with
  | EmptyString => EmptyString
  | String c r =>
      if Ascii.eqb c "_" then without_underscores r
      else String c (without_underscores r)
  end.

(** A text that [float] can read once its underscores are deleted: a
    decimal number, or the name of an infinity or of the NaN. *)
Definition is_numeric_text (s : string) : bool :=
  is_decimal_number s || is_inf_or_nan s.

(** The state of the automaton after one digit or more. *)
Definition after_digits (q : dstate) : dstate :=
  match q with
  | DStart | DSign | DInt => DInt
  | DPoint | DFrac => DFrac
  | DExpMark | DExpSign | DExpDigits => DExpDigits
  | DReject => DReject
  end.

Definition is_alpha (c : ascii) : bool :=
  let n := code c in
  ((65 <=? n) && (n <=? 90) || (97 <=? n) && (n <=? 122))%N.

(** The characters of the numeric texts. *)
Definition is_token_char (c : ascii) : bool :=
  is_digit c || is_sign_char c || Ascii.eqb c "." || is_alpha c.

(** The characters of such a text before its underscores are deleted. *)
Definition is_core_char (c : ascii) : bool :=
  is_token_char c || Ascii.eqb c "_".


(** [rounds_to s num ex x]: the float [x] is what rounding to nearest makes
    of the number [(-1)^s * num * 2^ex]. A finite [x] is a double with its
    mantissa [m] and exponent [e] in canonical form, within half a unit of
    [2^e] of the number (and, above the least exponent, the number is not
    below [(2^52 - 1/4) * 2^e], the midpoint under the least mantissa of
    that exponent), and equal to it when [e < ex]; a zero stands for a
    number of at most half the least positive double, [2^(-1074)]; an
    infinity for a number of at least [(2^54 - 1) * 2^970], the midpoint
    between the largest double and [2^1024]. *)
Definition rounds_to (s : bool) (num : positive) (ex : Z) (x : float) : Prop :=
  match x with
  | S754_zero s' => s' = s /\ 2 * Zpos num <= 2 ^ (-1074 - ex)
  | S754_finite s' m e =>
      s' = s /\ bounded prec emax m e = true /\
      if ex <=? e
      then 2 * Z.abs (Zpos m * 2 ^ (e - ex) - Zpos num) <= 2 ^ (e - ex) /\
           (-1074 < e -> (2 ^ 54 - 1) * 2 ^ (e - ex) <= 4 * Zpos num)
      else Zpos m = Zpos num * 2 ^ (ex - e)
  | S754_infinity s' =>
      s' = s /\
      if ex <=? 970
      then (2 ^ 54 - 1) * 2 ^ (970 - ex) <= Zpos num
      else 2 ^ 54 - 1 <= Zpos num * 2 ^ (ex - 970)
  | S754_nan => False
  end.

End Spec.

(** ** Proofs *)

Import Py RewardRate Spec.

(** *** Floor division *)

Lemma floordiv_pos (a b : Z) : 0 < b -> floordiv a b = Ok (a / b).
Proof.
  intros Hb. unfold floordiv.
  destruct (Z.eqb_spec b 0) as [->|_]; [lia|].
  pose proof (Z.quot_rem' a b) as Hqr.
  assert (Hnb : (b <? 0) = false) by (apply Z.ltb_ge; lia).
  assert (Hpb : (0 <? b) = true) by (apply Z.ltb_lt; lia).
  rewrite Hnb, Hpb, andb_false_r, orb_false_r, andb_true_r.
  pose proof (Z.rem_bound_abs a b ltac:(lia)) as Hbd.
  destruct (Z.ltb_spec (Z.rem a b) 0) as [Hr|Hr]; f_equal.
  - apply Z.div_unique with (r := Z.rem a b + b); [left; lia | lia].
  - apply Z.div_unique with (r := Z.rem a b); [left; lia | lia].
Qed.

(** C2: for a non-negative [annual_rewards_wei] the rate is the floor of
    [annual_rewards_wei / 31536000]: the largest integer [q] with
    [31536000 * q <= annual_rewards_wei]. *)
Theorem reward_rate_is_floor (a : Z) (H : 0 <= a) :
  reward_rate_wei_per_sec_of a = Ok (a / 31536000) /\
  31536000 * (a / 31536000) <= a < 31536000 * (a / 31536000 + 1).
Proof.
  split.
  - unfold reward_rate_wei_per_sec_of, SECONDS_PER_YEAR.
    apply floordiv_pos. lia.
  - pose proof (Z.mul_div_le a 31536000 ltac:(lia)).
    pose proof (Z.mul_succ_div_gt a 31536000 ltac:(lia)).
    lia.
Qed.

Lemma reward_rate_is_floor_witness :
  reward_rate_wei_per_sec_of 80000000000000000000 = Ok 2536783358701.
Proof.
  exact (proj1 (reward_rate_is_floor 80000000000000000000 ltac:(lia))).
Defined.

(** C10: for [annual_rewards_wei] strictly between [-31536000] and [0] the
    rate is [-1], where the quotient truncated toward zero is [0]. *)
Theorem reward_rate_small_negative (a : Z) (H : - 31536000 < a < 0) :
  reward_rate_wei_per_sec_of a = Ok (-1) /\ Z.quot a 31536000 = 0.
Proof.
  split.
  - unfold reward_rate_wei_per_sec_of, SECONDS_PER_YEAR.
    rewrite floordiv_pos by lia. f_equal.
    symmetry. apply Z.div_unique with (r := a + 31536000); [left; lia | lia].
  - rewrite <- (Z.opp_involutive a), Z.quot_opp_l by lia.
    rewrite Z.quot_small by lia. reflexivity.
Qed.

Lemma reward_rate_small_negative_witness :
  reward_rate_wei_per_sec_of (-1) = Ok (-1) /\ Z.quot (-1) 31536000 = 0.
Proof.
  apply (reward_rate_small_negative (-1)). lia.
Defined.

(** *** The scenarios *)

(** C1 (amended): with the lines [1000.0] and [8%] the run has
    [tvl_wei = 1000000000000000000000],
    [annual_rewards_wei = 80000000000000000000] and
    [reward_rate_wei_per_sec = 2536783358701], the floor of
    [80000000000000000000 / 31536000]. *)
Theorem scenario_A :
  values ["1000.0"; "8%"] =
    Ok (1000000000000000000000, 80000000000000000000, 2536783358701) /\
  80000000000000000000 / 31536000 = 2536783358701.
Proof. split; vm_compute; reflexivity. Qed.

(** C1 as stated fails: the rate of that run is not [2536783358390576]. *)
Lemma scenario_A_spec_rate_wrong :
  values ["1000.0"; "8%"] <>
    Ok (1000000000000000000000, 80000000000000000000, 2536783358390576).
Proof. vm_compute. discriminate. Qed.

(** C8: with the lines [1.0] and [100%], or [1.0] and [100], the run has
    [tvl_wei = 1000000000000000000],
    [annual_rewards_wei = 1000000000000000000] and
    [reward_rate_wei_per_sec = 31709791983]. *)
Theorem scenario_C :
  values ["1.0"; "100%"] =
    Ok (1000000000000000000, 1000000000000000000, 31709791983) /\
  values ["1.0"; "100"] =
    Ok (1000000000000000000, 1000000000000000000, 31709791983).
Proof. split; vm_compute; reflexivity. Qed.

(** C9: [parse_percent] returns on texts that are no decimal numbers:
    on [inf] the infinity, which is the infinity divided by [100.0]; on
    [nan] a NaN; on [1_0%] the double [0.1], the underscore between the
    digits being dropped. *)
Theorem parse_percent_accepts_non_decimal :
  parse_percent "inf" = Ok (S754_infinity false) /\
  float_truediv (S754_infinity false) lit_100_0 = Ok (S754_infinity false) /\
  parse_percent "nan" = Ok S754_nan /\
  is_nan S754_nan = true /\
  parse_percent "1_0%" = Ok (of_decimal false 1 (-1)) /\
  is_decimal_number (percent_text "inf") = false /\
  is_decimal_number (percent_text "nan") = false /\
  is_decimal_number (percent_text "1_0%") = false.
Proof. repeat split; vm_compute; reflexivity. Qed.

(** *** What a run prints *)

Lemma read_rates_trace (lines : list string) (v : Z * Z * Z) (w : world) :
  read_rates (start lines) = (Ok v, w) ->
  trace w = [Prompt "expected ETH TVL: "; Prompt "APY (e.g. 8 or 8%): "].
Proof.
  unfold read_rates, io_bind, input, lift, start, emit; cbn [stdin trace].
  destruct lines as [|l1 rest]; [discriminate|]. cbn [stdin trace].
  destruct (float_of_str (strip l1)); [|discriminate].
  destruct rest as [|l2 rest]; [discriminate|]. cbn [stdin trace app].
  destruct (parse_percent l2); [|discriminate].
  destruct (rates a a0); [|discriminate].
  intros [= _ <-]. reflexivity.
Qed.

(** C6 (amended): a run that succeeds shows the two prompts and then prints
    four lines, in this order: [tvl_wei: ] and the value of [tvl_wei];
    [annual_rewards_wei: ] and the value of [annual_rewards_wei];
    [rewardRate (wei/sec): ] and the rate; [addPool(address(0), ], the rate,
    one blank and the closing parenthesis. *)
Theorem main_prints_four_lines (lines : list string) (w : world)
    (H : run lines = (Ok tt, w)) :
  exists tvl_wei annual_rewards_wei rate : Z,
    values lines = Ok (tvl_wei, annual_rewards_wei, rate) /\
    trace w =
      [Prompt "expected ETH TVL: "; Prompt "APY (e.g. 8 or 8%): ";
       Print ("tvl_wei: " ++ str_of_int tvl_wei);
       Print ("annual_rewards_wei: " ++ str_of_int annual_rewards_wei);
       Print ("rewardRate (wei/sec): " ++ str_of_int rate);
       Print ("addPool(address(0), " ++ str_of_int rate ++ " )")].
Proof.
  unfold run, main, io_bind in H. unfold values.
  destruct (read_rates (start lines)) as [[[[t a] r]|e] w'] eqn:E;
    [|discriminate].
  apply read_rates_trace in E.
  exists t, a, r. split; [reflexivity|].
  unfold print, emit in H. cbn [stdin trace fst snd] in H.
  injection H as <-. cbn [trace]. rewrite E. reflexivity.
Qed.

Lemma main_prints_four_lines_witness :
  exists tvl_wei annual_rewards_wei rate : Z,
    values ["1000.0"; "8%"] = Ok (tvl_wei, annual_rewards_wei, rate) /\
    trace (snd (run ["1000.0"; "8%"])) =
      [Prompt "expected ETH TVL: "; Prompt "APY (e.g. 8 or 8%): ";
       Print ("tvl_wei: " ++ str_of_int tvl_wei);
       Print ("annual_rewards_wei: " ++ str_of_int annual_rewards_wei);
       Print ("rewardRate (wei/sec): " ++ str_of_int rate);
       Print ("addPool(address(0), " ++ str_of_int rate ++ " )")].
Proof.
  apply (main_prints_four_lines ["1000.0"; "8%"]).
  vm_compute. reflexivity.
Defined.

(** C6 as stated fails: in the run on [1000.0] and [8%] the rate is
    [2536783358701], and the fourth line is not
    [addPool(address(0), 2536783358701)]: a blank stands before the closing
    parenthesis. *)
Lemma fourth_line_has_blank :
  printed (trace (snd (run ["1000.0"; "8%"]))) =
    ["tvl_wei: 1000000000000000000000";
     "annual_rewards_wei: 80000000000000000000";
     "rewardRate (wei/sec): 2536783358701";
     "addPool(address(0), 2536783358701 )"] /\
  nth 3 (printed (trace (snd (run ["1000.0"; "8%"])))) "" <>
    "addPool(address(0), " ++ str_of_int 2536783358701 ++ ")".
Proof. split; vm_compute; [reflexivity | discriminate]. Qed.

(** *** Stripping *)

Section Strip.
Variable p : ascii -> bool.

Lemma lstrip_all (w : string) :
  all_chars p w = true -> lstrip_with p w = "".
Proof.
  induction w as [|c w IH]; cbn; [reflexivity|].
  intros [Hc Hw]%andb_prop. rewrite Hc. auto.
Qed.

Lemma rstrip_all (w : string) :
  all_chars p w = true -> rstrip_with p w = "".
Proof.
  induction w as [|c w IH]; cbn; [reflexivity|].
  intros [Hc Hw]%andb_prop. rewrite (IH Hw), Hc. reflexivity.
Qed.

Lemma lstrip_app_all (w x : string) :
  all_chars p w = true -> lstrip_with p (w ++ x) = lstrip_with p x.
Proof.
  induction w as [|c w IH]; cbn; [reflexivity|].
  intros [Hc Hw]%andb_prop. rewrite Hc. auto.
Qed.

Lemma rstrip_app_all (x w : string) :
  all_chars p w = true -> rstrip_with p (x ++ w) = rstrip_with p x.
Proof.
  intros Hw. induction x as [|c x IH]; cbn.
  - now apply rstrip_all.
  - rewrite IH. reflexivity.
Qed.

Lemma lstrip_app_keep (a b : string) (c : ascii) :
  p c = false ->
  lstrip_with p (a ++ String c b) = lstrip_with p a ++ String c b.
Proof.
  intros Hc. induction a as [|d a IH]; cbn.
  - rewrite Hc. reflexivity.
  - destruct (p d); [exact IH | reflexivity].
Qed.

Lemma rstrip_app_keep (x w : string) (c : ascii) :
  p c = false -> all_chars p w = true ->
  rstrip_with p (x ++ String c w) = x ++ String c "".
Proof.
  intros Hc Hw. induction x as [|d x IH]; cbn.
  - rewrite (rstrip_all w Hw), Hc. reflexivity.
  - rewrite IH. destruct x; reflexivity.
Qed.

Lemma lstrip_idem (x : string) :
  lstrip_with p (lstrip_with p x) = lstrip_with p x.
Proof.
  induction x as [|c x IH]; cbn; [reflexivity|].
  destruct (p c) eqn:Hc; [exact IH|]. cbn. rewrite Hc. reflexivity.
Qed.

Lemma rstrip_idem (x : string) :
  rstrip_with p (rstrip_with p x) = rstrip_with p x.
Proof.
  induction x as [|c x IH]; cbn; [reflexivity|].
  destruct (rstrip_with p x) as [|d y] eqn:E.
  - destruct (p c) eqn:Hc; cbn; [reflexivity|]. rewrite Hc. reflexivity.
  - cbn [rstrip_with]. cbn [rstrip_with] in IH. rewrite IH. reflexivity.
Qed.

(** Stripping on the right does not touch a first character that stays. *)
Lemma rstrip_head (c : ascii) (x : string) :
  p c = false -> exists y, rstrip_with p (String c x) = String c y.
Proof.
  intros Hc. cbn. destruct (rstrip_with p x).
  - rewrite Hc. eauto.
  - eauto.
Qed.

Lemma lstrip_rstrip_lstrip (x : string) :
  lstrip_with p (rstrip_with p (lstrip_with p x)) =
  rstrip_with p (lstrip_with p x).
Proof.
  induction x as [|c x IH]; cbn [lstrip_with]; [reflexivity|].
  destruct (p c) eqn:Hc; [exact IH|].
  destruct (rstrip_head c x Hc) as [y ->]. cbn. rewrite Hc. reflexivity.
Qed.

Lemma strip_app_all_r (x w : string) :
  all_chars p w = true ->
  rstrip_with p (lstrip_with p (x ++ w)) = rstrip_with p (lstrip_with p x).
Proof.
  intros Hw. induction x as [|c x IH]; cbn [append lstrip_with].
  - rewrite (lstrip_all w Hw). reflexivity.
  - destruct (p c); [exact IH|].
    change (String c (x ++ w)) with (String c x ++ w).
    now apply rstrip_app_all.
Qed.
End Strip.

Lemma strip_idem (s : string) : strip (strip s) = strip s.
Proof.
  unfold strip. rewrite lstrip_rstrip_lstrip. apply rstrip_idem.
Qed.

Lemma strip_surrounded (w1 t w2 : string) :
  all_space w1 = true -> all_space w2 = true ->
  strip (w1 ++ t ++ w2) = strip t.
Proof.
  intros H1 H2. unfold strip.
  rewrite lstrip_app_all by exact H1. now apply strip_app_all_r.
Qed.

Lemma substring_prefix (y r : string) :
  substring 0 (String.length y) (y ++ r) = y.
Proof.
  induction y as [|c y IH]; cbn.
  - destruct r; reflexivity.
  - rewrite IH. reflexivity.
Qed.

Lemma substring_last (y : string) (c : ascii) :
  substring (String.length y) 1 (y ++ String c "") = String c "".
Proof.
  induction y as [|d y IH]; cbn; [reflexivity | exact IH].
Qed.

Lemma length_snoc (y : string) (c : ascii) :
  String.length (y ++ String c "") = S (String.length y).
Proof.
  induction y as [|d y IH]; cbn; [reflexivity | now rewrite IH].
Qed.

Lemma endswith_snoc (y : string) (c : ascii) :
  endswith (y ++ String c "") (String c "") = true.
Proof.
  unfold endswith. rewrite length_snoc. cbn [String.length].
  replace (S (String.length y) <? 1)%nat with false
    by (symmetry; apply Nat.ltb_ge; lia).
  replace (S (String.length y) - 1)%nat with (String.length y) by lia.
  rewrite substring_last. apply String.eqb_refl.
Qed.

Lemma slice_to_snoc (y : string) (c : ascii) :
  slice_to (y ++ String c "") (-1) = y.
Proof.
  unfold slice_to. rewrite length_snoc. cbn [Z.ltb Z.compare].
  replace (Z.to_nat (Z.max 0 (-1 + Z.of_nat (S (String.length y)))))
    with (String.length y) by lia.
  apply substring_prefix.
Qed.

(** The text handed to [float] when a percent sign and white space are put
    around [t]. *)
Lemma percent_text_decorated (w1 t w2 w3 : string) :
  all_space w1 = true -> all_space w2 = true -> all_space w3 = true ->
  percent_text (w1 ++ t ++ w2 ++ "%" ++ w3) = strip t.
Proof.
  intros H1 H2 H3. unfold percent_text.
  assert (E : strip (w1 ++ t ++ w2 ++ "%" ++ w3) =
              lstrip_with is_space (t ++ w2) ++ "%").
  { unfold strip. rewrite lstrip_app_all by exact H1.
    replace (t ++ w2 ++ "%" ++ w3) with ((t ++ w2) ++ String "%" w3).
    2:{ clear. induction t as [|c t IH]; cbn; [reflexivity | now rewrite IH]. }
    rewrite lstrip_app_keep by reflexivity.
    now apply rstrip_app_keep. }
  rewrite E, endswith_snoc, slice_to_snoc.
  unfold strip. rewrite lstrip_idem. now apply strip_app_all_r.
Qed.

Lemma parse_percent_text (s : string) :
  parse_percent s =
  bind (float_of_str (percent_text s)) (fun x => float_truediv x lit_100_0).
Proof. reflexivity. Qed.

(** C3: [parse_percent] gives the double [0.08] on [8], on [8%] and on
    [  8 % ]; a percent sign after the text, and white space around the
    text and around the sign, do not change what [parse_percent] returns
    (the text itself not ending in a percent sign). *)
Theorem parse_percent_sign_and_space (w1 w2 w3 t : string)
    (H1 : all_space w1 = true) (H2 : all_space w2 = true)
    (H3 : all_space w3 = true) (Ht : endswith (strip t) "%" = false) :
  parse_percent "8" = Ok (of_decimal false 8 (-2)) /\
  parse_percent "8%" = Ok (of_decimal false 8 (-2)) /\
  parse_percent "  8 % " = Ok (of_decimal false 8 (-2)) /\
  parse_percent (w1 ++ t ++ w2 ++ "%" ++ w3) = parse_percent t /\
  parse_percent (w1 ++ t ++ w3) = parse_percent t.
Proof.
  split; [vm_compute; reflexivity|].
  split; [vm_compute; reflexivity|].
  split; [vm_compute; reflexivity|].
  assert (Et : percent_text t = strip t).
  { unfold percent_text. rewrite Ht. reflexivity. }
  split.
  - rewrite !parse_percent_text, percent_text_decorated, Et by assumption.
    reflexivity.
  - rewrite !parse_percent_text. unfold percent_text.
    rewrite strip_surrounded by assumption. reflexivity.
Qed.

Lemma parse_percent_sign_and_space_witness :
  parse_percent "8" = Ok (of_decimal false 8 (-2)) /\
  parse_percent "8%" = Ok (of_decimal false 8 (-2)) /\
  parse_percent "  8 % " = Ok (of_decimal false 8 (-2)) /\
  parse_percent ("  " ++ "8" ++ " " ++ "%" ++ " ") = parse_percent "8" /\
  parse_percent ("  " ++ "8" ++ " ") = parse_percent "8".
Proof.
  apply (parse_percent_sign_and_space "  " " " " " "8"); reflexivity.
Defined.

(** *** The texts that [float] reads *)

Lemma token_char_facts (c : ascii) :
  is_token_char c = true ->
  is_space c = false /\ is_c_space c = false /\ (code c <? 127)%N = true /\
  Ascii.eqb c "_" = false /\ Ascii.eqb c "?" = false.
Proof.
  destruct c as [[] [] [] [] [] [] [] []]; vm_compute;
    intuition discriminate.
Qed.

Lemma digit_facts (c : ascii) :
  is_digit c = true ->
  is_sign_char c = false /\ Ascii.eqb c "." = false /\
  is_exp_char c = false /\ Ascii.eqb c "_" = false /\
  is_c_space c = false.
Proof.
  destruct c as [[] [] [] [] [] [] [] []]; vm_compute;
    intuition discriminate.
Qed.

Lemma exp_char_facts (c : ascii) :
  is_exp_char c = true ->
  is_digit c = false /\ Ascii.eqb c "." = false /\ is_sign_char c = false.
Proof.
  destruct c as [[] [] [] [] [] [] [] []]; vm_compute;
    intuition discriminate.
Qed.

Lemma sign_char_facts (c : ascii) :
  is_sign_char c = true -> is_token_char c = true.
Proof.
  destruct c as [[] [] [] [] [] [] [] []]; vm_compute;
    intuition discriminate.
Qed.

Lemma drun_app (q : dstate) (a b : string) :
  drun q (a ++ b) = drun (drun q a) b.
Proof.
  revert q. induction a as [|c a IH]; intros q; cbn; [reflexivity | apply IH].
Qed.

Lemma dstep_digit (q : dstate) (c : ascii) :
  is_digit c = true -> dstep q c = after_digits q.
Proof.
  intros Hd. destruct (digit_facts c Hd) as (Hs & Hp & He & _).
  destruct q; cbn; rewrite ?Hs, ?Hd; reflexivity.
Qed.

Lemma drun_digits (q : dstate) (d : string) :
  all_chars is_digit d = true ->
  drun q d = match d with EmptyString => q | _ => after_digits q end.
Proof.
  revert q. induction d as [|c d IH]; intros q; cbn; [reflexivity|].
  intros [Hc Hd]%andb_prop. rewrite (dstep_digit q c Hc), (IH _ Hd).
  destruct d; [reflexivity | destruct q; reflexivity].
Qed.

Lemma span_digits_spec (s d r : string) :
  span_digits s = (d, r) -> s = d ++ r /\ all_chars is_digit d = true.
Proof.
  revert d r. induction s as [|c s IH]; intros d r; cbn.
  - intros [= <- <-]. split; reflexivity.
  - destruct (is_digit c) eqn:Hc.
    + destruct (span_digits s) as [d' t]. intros [= <- <-].
      destruct (IH d' t eq_refl) as [-> Hd]. cbn. rewrite Hc. auto.
    + intros [= <- <-]. split; reflexivity.
Qed.

Lemma take_sign_spec (s r : string) (neg : bool) :
  take_sign s = (neg, r) ->
  s = r \/ exists c, is_sign_char c = true /\ s = String c r.
Proof.
  destruct s as [|c s]; cbn.
  - intros [= _ <-]. now left.
  - unfold is_sign_char.
    destruct (Ascii.eqb c "-") eqn:Em.
    + intros [= _ <-]. right. exists c. rewrite Em, orb_true_r. auto.
    + destruct (Ascii.eqb c "+") eqn:Ep; intros [= _ <-].
      * right. exists c. rewrite Ep. auto.
      * now left.
Qed.

(** After the sign, the digits and the point: the automaton has read a
    number without exponent. *)
Lemma drun_mantissa (q : dstate) (s1 ip s2 fp s3 : string) :
  q = DStart \/ q = DSign ->
  span_digits s1 = (ip, s2) ->
  match s2 with
  | String c r => if Ascii.eqb c "." then span_digits r else (EmptyString, s2)
  | EmptyString => (EmptyString, s2)
  end = (fp, s3) ->
  ip ++ fp <> "" ->
  exists pre, s1 = pre ++ s3 /\ (drun q pre = DInt \/ drun q pre = DFrac).
Proof.
  intros Hq Hip Hfp Hne.
  destruct (span_digits_spec _ _ _ Hip) as [-> Hipd].
  assert (Hq2 : drun q ip = match ip with "" => q | _ => DInt end).
  { rewrite drun_digits by exact Hipd.
    destruct ip; [reflexivity|]. destruct Hq as [-> | ->]; reflexivity. }
  destruct s2 as [|c r].
  - injection Hfp as <- <-. exists ip. split; [reflexivity|].
    rewrite Hq2. destruct ip; [now elim Hne | now left].
  - destruct (Ascii.eqb c ".") eqn:Ec.
    + apply Ascii.eqb_eq in Ec. subst c.
      destruct (span_digits_spec _ _ _ Hfp) as [-> Hfpd].
      exists (ip ++ String "." fp). split.
      * clear. induction ip as [|a ip IH]; cbn; [reflexivity | now rewrite IH].
      * rewrite drun_app, Hq2. cbn [drun].
        rewrite drun_digits by exact Hfpd.
        destruct ip as [|a ip].
        -- destruct fp as [|b fp]; [now elim Hne|].
           right. destruct Hq as [-> | ->]; reflexivity.
        -- right. destruct fp; reflexivity.
    + injection Hfp as <- <-. exists ip. split; [reflexivity|].
      rewrite Hq2. destruct ip; [now elim Hne | now left].
Qed.

Lemma drun_exponent (q : dstate) (s3 : string) (ex : Z) :
  q = DInt \/ q = DFrac ->
  read_exponent s3 = (ex, "") -> daccept (drun q s3) = true.
Proof.
  intros Hq. destruct s3 as [|c r]; cbn [read_exponent].
  - intros _. destruct Hq as [-> | ->]; reflexivity.
  - fold (is_exp_char c). destruct (is_exp_char c) eqn:Ec; [|discriminate].
    destruct (take_sign r) as [neg r1] eqn:Es.
    destruct (span_digits r1) as [ed r2] eqn:Ed.
    destruct ed as [|d0 ed]; [discriminate|]. intros [= _ ->].
    destruct (span_digits_spec _ _ _ Ed) as [-> Hd].
    destruct (exp_char_facts c Ec) as (Hcd & Hcp & _).
    assert (Hm : dstep q c = DExpMark).
    { destruct Hq as [-> | ->]; cbn; rewrite Hcd, ?Hcp, Ec; reflexivity. }
    cbn [drun]. rewrite Hm.
    destruct (take_sign_spec _ _ _ Es) as [-> | (g & Hg & ->)].
    + rewrite drun_app, (drun_digits _ _ Hd). reflexivity.
    + cbn [drun dstep]. rewrite Hg.
      rewrite drun_app, (drun_digits _ _ Hd). reflexivity.
Qed.

Lemma dg_strtod_decimal (s : string) (x : float) :
  dg_strtod s = Some (x, "") -> is_decimal_number s = true.
Proof.
  unfold dg_strtod.
  destruct (take_sign s) as [neg s1] eqn:Es.
  destruct (span_digits s1) as [ip s2] eqn:Eip.
  destruct (match s2 with
            | String c r =>
                if Ascii.eqb c "." then span_digits r else (EmptyString, s2)
            | EmptyString => (EmptyString, s2)
            end) as [fp s3] eqn:Efp.
  destruct (ip ++ fp) as [|c0 ds] eqn:Eds; [discriminate|].
  destruct (_ || _)%bool; [discriminate|].
  destruct (read_exponent s3) as [ex s4] eqn:Eex. intros [= _ ->].
  assert (Hne : ip ++ fp <> "") by (rewrite Eds; discriminate).
  unfold is_decimal_number.
  destruct (take_sign_spec _ _ _ Es) as [-> | (g & Hg & ->)].
  - destruct (drun_mantissa DStart _ _ _ _ _ (or_introl eq_refl) Eip Efp Hne)
      as (pre & -> & Hq).
    rewrite drun_app. now apply drun_exponent with (ex := ex).
  - destruct (drun_mantissa DSign _ _ _ _ _ (or_intror eq_refl) Eip Efp Hne)
      as (pre & -> & Hq).
    cbn [drun dstep]. rewrite Hg.
    rewrite drun_app. now apply drun_exponent with (ex := ex).
Qed.

Lemma case_insensitive_match_spec (t s r : string) :
  case_insensitive_match s t = Some r -> lower s = t ++ lower r.
Proof.
  revert s. induction t as [|ct t IH]; intros s; cbn.
  - now intros [= ->].
  - destruct s as [|cs s]; [discriminate|].
    destruct (Ascii.eqb (to_lower cs) ct) eqn:E; [|discriminate].
    apply Ascii.eqb_eq in E. intros H%IH. cbn. now rewrite E, H.
Qed.

Lemma parse_inf_or_nan_spec (s : string) (x : float) :
  parse_inf_or_nan s = Some (x, "") -> is_inf_or_nan s = true.
Proof.
  unfold parse_inf_or_nan, is_inf_or_nan.
  destruct (take_sign s) as [neg s1]. cbn [snd].
  destruct (case_insensitive_match s1 "inf") as [r|] eqn:E1.
  - apply case_insensitive_match_spec in E1.
    destruct (case_insensitive_match r "inity") as [r'|] eqn:E2.
    + apply case_insensitive_match_spec in E2. intros [= _ ->].
      rewrite E1, E2. reflexivity.
    + intros [= _ ->]. rewrite E1. reflexivity.
  - destruct (case_insensitive_match s1 "nan") as [r|] eqn:E2; [|discriminate].
    apply case_insensitive_match_spec in E2. intros [= _ ->].
    rewrite E2. reflexivity.
Qed.

Lemma ascii_strtod_numeric (b : string) (x : float) :
  ascii_strtod b = Some (x, "") -> is_numeric_text b = true.
Proof.
  unfold ascii_strtod, is_numeric_text.
  destruct (dg_strtod b) as [[y r]|] eqn:E.
  - intros [= -> ->]. now rewrite (dg_strtod_decimal _ _ E).
  - intros H%parse_inf_or_nan_spec. rewrite H. apply orb_true_r.
Qed.

(** *** The characters of a numeric text *)

Lemma all_chars_impl (p q : ascii -> bool) (s : string) :
  (forall c, p c = true -> q c = true) ->
  all_chars p s = true -> all_chars q s = true.
Proof.
  intros Hpq. induction s as [|c s IH]; cbn; [reflexivity|].
  intros [Hc Hs]%andb_prop. now rewrite (Hpq c Hc), IH.
Qed.

Lemma all_chars_app (p : ascii -> bool) (a b : string) :
  all_chars p (a ++ b) = all_chars p a && all_chars p b.
Proof.
  induction a as [|c a IH]; cbn; [reflexivity|].
  now rewrite IH, andb_assoc.
Qed.

Lemma non_token_facts (c : ascii) :
  is_token_char c = false ->
  is_digit c = false /\ is_sign_char c = false /\
  Ascii.eqb c "." = false /\ is_exp_char c = false.
Proof.
  destruct c as [[] [] [] [] [] [] [] []]; vm_compute;
    intuition discriminate.
Qed.

Lemma dstep_token (q : dstate) (c : ascii) :
  dstep q c <> DReject -> is_token_char c = true.
Proof.
  intros H. destruct (is_token_char c) eqn:E; [reflexivity|].
  destruct (non_token_facts c E) as (Hd & Hs & Hp & He).
  elim H. destruct q; cbn; rewrite ?Hd, ?Hs, ?Hp, ?He; reflexivity.
Qed.

Lemma drun_reject (s : string) : drun DReject s = DReject.
Proof. induction s as [|c s IH]; cbn; [reflexivity | exact IH]. Qed.

Lemma decimal_token_chars (q : dstate) (s : string) :
  daccept (drun q s) = true -> all_chars is_token_char s = true.
Proof.
  revert q. induction s as [|c s IH]; intros q; cbn; [reflexivity|].
  intros H. destruct (dstate_eq_dec (dstep q c) DReject) as [E|E].
  - rewrite E, drun_reject in H. discriminate.
  - rewrite (dstep_token q c E). exact (IH _ H).
Qed.

Lemma to_lower_alpha (c : ascii) :
  is_alpha (to_lower c) = true -> is_alpha c = true.
Proof.
  destruct c as [[] [] [] [] [] [] [] []]; vm_compute;
    intuition discriminate.
Qed.

Lemma lower_alpha (w : string) :
  all_chars is_alpha (lower w) = true -> all_chars is_alpha w = true.
Proof.
  induction w as [|c w IH]; cbn; [reflexivity|].
  intros [Hc Hw]%andb_prop. now rewrite (to_lower_alpha c Hc), IH.
Qed.

Lemma alpha_token (c : ascii) : is_alpha c = true -> is_token_char c = true.
Proof. unfold is_token_char. intros ->. apply orb_true_r. Qed.

Lemma inf_nan_token_chars (s : string) :
  is_inf_or_nan s = true -> all_chars is_token_char s = true.
Proof.
  unfold is_inf_or_nan. destruct (take_sign s) as [neg s1] eqn:Es.
  cbn [snd]. intros H.
  assert (Ha : all_chars is_alpha s1 = true).
  { apply lower_alpha.
    apply orb_prop in H as [H|H]; [apply orb_prop in H as [H|H]|];
      apply String.eqb_eq in H; rewrite H; reflexivity. }
  apply (all_chars_impl _ _ _ alpha_token) in Ha.
  destruct (take_sign_spec _ _ _ Es) as [-> | (g & Hg & ->)]; [exact Ha|].
  cbn. now rewrite (sign_char_facts g Hg), Ha.
Qed.

Lemma numeric_token_chars (s : string) :
  is_numeric_text s = true -> all_chars is_token_char s = true.
Proof.
  unfold is_numeric_text, is_decimal_number.
  intros [H|H]%orb_prop.
  - exact (decimal_token_chars _ _ H).
  - exact (inf_nan_token_chars _ H).
Qed.

(** *** The underscores *)

Lemma remove_underscores_filter (s u : string) (p : ascii) :
  remove_underscores p s = Some u -> u = without_underscores s.
Proof.
  revert p u. induction s as [|c s IH]; intros p u; cbn.
  - destruct (Ascii.eqb p "_"); [discriminate | now intros [= <-]].
  - destruct (Ascii.eqb c "_").
    + destruct (is_digit p); [apply IH | discriminate].
    + destruct (Ascii.eqb p "_" && negb (is_digit c)); [discriminate|].
      destruct (remove_underscores c s) as [u'|] eqn:E; [|discriminate].
      cbn. intros [= <-]. now rewrite (IH _ _ E).
Qed.

(** Of the character before, only its being a digit or an underscore
    counts. *)
Lemma remove_underscores_prev (p p' : ascii) (s : string) :
  is_digit p = is_digit p' -> Ascii.eqb p "_" = Ascii.eqb p' "_" ->
  remove_underscores p s = remove_underscores p' s.
Proof. intros Hd Hu. destruct s; cbn; rewrite ?Hd, ?Hu; reflexivity. Qed.

Lemma remove_underscores_nil (p : ascii) (s : string) :
  remove_underscores p s = Some "" -> s = "".
Proof.
  destruct s as [|c s]; [reflexivity|]. cbn.
  destruct (Ascii.eqb c "_") eqn:Ec.
  - destruct (is_digit p); [|discriminate].
    destruct s as [|d s]; cbn; rewrite Ec; [discriminate|].
    destruct (Ascii.eqb d "_") eqn:Ed.
    + apply Ascii.eqb_eq in Ec. subst c. discriminate.
    + cbn. destruct (is_digit d); cbn; [|discriminate].
      destruct (remove_underscores d s); discriminate.
  - destruct (Ascii.eqb p "_" && negb (is_digit c)); [discriminate|].
    destruct (remove_underscores c s); discriminate.
Qed.

Lemma c_space_facts (c : ascii) :
  is_c_space c = true ->
  is_digit c = false /\ Ascii.eqb c "_" = false /\ is_space c = true.
Proof.
  destruct c as [[] [] [] [] [] [] [] []]; vm_compute;
    intuition discriminate.
Qed.

Lemma remove_underscores_lstrip (p : ascii) (a u : string) :
  is_digit p = false -> Ascii.eqb p "_" = false ->
  remove_underscores p a = Some u ->
  remove_underscores p (lstrip_with is_c_space a) =
    Some (lstrip_with is_c_space u).
Proof.
  intros Hd Hu. revert u. induction a as [|c a IH]; intros u.
  - cbn. rewrite Hu. now intros [= <-].
  - cbn [remove_underscores lstrip_with]. rewrite Hd, Hu. cbn [andb].
    destruct (Ascii.eqb c "_") eqn:Ec; [discriminate|].
    destruct (remove_underscores c a) as [u'|] eqn:E; [|discriminate].
    cbn [option_map]. intros [= <-]. cbn [lstrip_with].
    destruct (is_c_space c) eqn:Hc.
    + destruct (c_space_facts c Hc) as (Hcd & Hcu & _).
      apply IH. rewrite <- E. apply remove_underscores_prev; congruence.
    + cbn [remove_underscores]. rewrite Ec, Hu, E. reflexivity.
Qed.

Lemma remove_underscores_cons (p c : ascii) (r : string) :
  remove_underscores p (String c r) =
  if Ascii.eqb c "_" then
    if is_digit p then remove_underscores c r else None
  else if Ascii.eqb p "_" && negb (is_digit c) then None
  else option_map (String c) (remove_underscores c r).
Proof. reflexivity. Qed.

Lemma remove_underscores_rstrip (p : ascii) (a u : string) :
  remove_underscores p a = Some u ->
  remove_underscores p (rstrip_with is_c_space a) =
    Some (rstrip_with is_c_space u).
Proof.
  revert p u. induction a as [|c a IH]; intros p u.
  - cbn. destruct (Ascii.eqb p "_"); [discriminate | now intros [= <-]].
  - rewrite remove_underscores_cons. cbn [rstrip_with].
    destruct (Ascii.eqb c "_") eqn:Ec.
    + destruct (is_digit p) eqn:Hp; [|discriminate]. intros H.
      specialize (IH _ _ H).
      destruct (rstrip_with is_c_space a) as [|d a'] eqn:Ea.
      * cbn in IH. rewrite Ec in IH. discriminate.
      * rewrite remove_underscores_cons, Ec, Hp. exact IH.
    + destruct (Ascii.eqb p "_" && negb (is_digit c)) eqn:Hpc; [discriminate|].
      destruct (remove_underscores c a) as [u'|] eqn:E; [|discriminate].
      cbn [option_map]. intros [= <-]. specialize (IH _ _ E).
      cbn [rstrip_with].
      destruct (rstrip_with is_c_space a) as [|d a'] eqn:Ea.
      * cbn in IH. rewrite Ec in IH. injection IH as <-.
        destruct (is_c_space c) eqn:Hc.
        -- destruct (c_space_facts c Hc) as (Hcd & _).
           rewrite Hcd, andb_true_r in Hpc. cbn. now rewrite Hpc.
        -- rewrite remove_underscores_cons, Ec, Hpc. cbn. now rewrite Ec.
      * rewrite remove_underscores_cons, Ec, Hpc, IH. cbn [option_map].
        destruct (rstrip_with is_c_space u') as [|e u''] eqn:Eu;
          [|reflexivity].
        apply remove_underscores_nil in IH. discriminate.
Qed.

Lemma without_underscores_chars (q : ascii -> bool) (s : string) :
  all_chars q (without_underscores s) = true ->
  all_chars (fun c => q c || Ascii.eqb c "_") s = true.
Proof.
  induction s as [|c s IH]; cbn; [reflexivity|].
  destruct (Ascii.eqb c "_").
  - intros H. now rewrite orb_true_r, IH.
  - cbn. intros [Hc Hs]%andb_prop. now rewrite Hc, IH.
Qed.

(** *** White space around a text without white space *)

Section Decompose.
Variable p : ascii -> bool.

Lemma lstrip_decompose (s : string) :
  exists w, all_chars p w = true /\ s = w ++ lstrip_with p s.
Proof.
  induction s as [|c s (w & Hw & E)]; cbn.
  - exists "". split; reflexivity.
  - destruct (p c) eqn:Hc.
    + exists (String c w). cbn. rewrite Hc, Hw. split; [reflexivity|].
      now rewrite <- E.
    + exists "". split; reflexivity.
Qed.

Lemma rstrip_decompose (s : string) :
  exists w, all_chars p w = true /\ s = rstrip_with p s ++ w.
Proof.
  induction s as [|c s (w & Hw & E)]; cbn.
  - exists "". split; reflexivity.
  - destruct (rstrip_with p s) as [|d y] eqn:Ey.
    + destruct (p c) eqn:Hc.
      * exists (String c w). cbn in *. rewrite Hc, Hw. split; [reflexivity|].
        now rewrite <- E.
      * exists w. split; [exact Hw|]. cbn in *. now rewrite <- E.
    + exists w. split; [exact Hw|]. cbn in *. now rewrite <- E.
Qed.

Lemma strip_fixed (k : string) :
  all_chars (fun c => negb (p c)) k = true ->
  rstrip_with p (lstrip_with p k) = k.
Proof.
  intros H. assert (E : lstrip_with p k = k).
  { destruct k as [|c k]; cbn in *; [reflexivity|].
    apply andb_prop in H as [Hc _]. apply negb_true_iff in Hc.
    now rewrite Hc. }
  rewrite E. clear E. induction k as [|c k IH]; cbn in *; [reflexivity|].
  apply andb_prop in H as [Hc Hk]. apply negb_true_iff in Hc.
  rewrite (IH Hk), Hc. destruct k; reflexivity.
Qed.
End Decompose.

Lemma core_char_facts (c : ascii) :
  is_core_char c = true ->
  negb (is_space c) = true /\ is_c_space c = false /\
  (code c <? 127)%N = true /\ Ascii.eqb c "?" = false.
Proof.
  destruct c as [[] [] [] [] [] [] [] []]; vm_compute;
    intuition discriminate.
Qed.

Lemma c_space_is_space (w : string) :
  all_chars is_c_space w = true -> all_space w = true.
Proof.
  apply all_chars_impl. intros c Hc. now destruct (c_space_facts c Hc).
Qed.

Lemma strip_core (w1 k w2 : string) :
  all_space w1 = true -> all_space w2 = true ->
  all_chars is_core_char k = true ->
  strip (w1 ++ k ++ w2) = k.
Proof.
  intros H1 H2 Hk. rewrite strip_surrounded by assumption.
  apply strip_fixed. revert Hk. apply all_chars_impl.
  intros c Hc. now destruct (core_char_facts c Hc).
Qed.

(** *** Bringing a string to ASCII *)

Lemma transform_head (t r' : string) (c' : ascii) :
  transform t = String c' r' -> Ascii.eqb c' "?" = false ->
  exists c r, t = String c r /\ transform r = r' /\
    (c' = c \/ is_space c = true /\ c' = " "%char).
Proof.
  destruct t as [|c r]; cbn; [discriminate|].
  destruct (code c <? 127)%N.
  - intros [= <- <-] _. exists c, r. auto.
  - destruct (is_space c) eqn:Hc.
    + intros [= <- <-] _. exists c, r. auto.
    + intros [= <- <-]. discriminate.
Qed.

Lemma transform_spaces (w r' t : string) :
  all_chars is_c_space w = true -> transform t = w ++ r' ->
  exists W r, t = W ++ r /\ all_space W = true /\ transform r = r'.
Proof.
  revert t. induction w as [|c' w IH]; intros t; cbn.
  - intros _ E. exists "", t. auto.
  - intros [Hc Hw]%andb_prop E.
    destruct (c_space_facts c' Hc) as (_ & _ & Hsp).
    assert (Hq : Ascii.eqb c' "?" = false).
    { destruct (Ascii.eqb_spec c' "?"); [subst; discriminate | reflexivity]. }
    destruct (transform_head _ _ _ E Hq) as (c & r & -> & Er & Hcc).
    destruct (IH r Hw Er) as (W & r0 & -> & HW & E0).
    exists (String c W), r0. repeat split; [|exact E0].
    unfold all_space in *. cbn. rewrite HW.
    destruct Hcc as [<- | [-> _]]; [now rewrite Hsp | reflexivity].
Qed.

Lemma transform_core (k r' t : string) :
  all_chars is_core_char k = true -> transform t = k ++ r' ->
  exists r, t = k ++ r /\ transform r = r'.
Proof.
  revert t. induction k as [|c' k IH]; intros t; cbn.
  - intros _ E. exists t. auto.
  - intros [Hc Hk]%andb_prop E.
    destruct (core_char_facts c' Hc) as (_ & Hcs & _ & Hq).
    destruct (transform_head _ _ _ E Hq) as (c & r & -> & Er & Hcc).
    destruct (IH r Hk Er) as (r0 & -> & E0).
    exists r0. split; [|exact E0].
    destruct Hcc as [<- | [_ ->]]; [reflexivity | discriminate].
Qed.

Lemma transform_all_space (w t : string) :
  all_chars is_c_space w = true -> transform t = w -> all_space t = true.
Proof.
  intros Hw E.
  destruct (transform_spaces w "" t Hw) as (W & r & -> & HW & Er).
  { rewrite E. clear. induction w as [|c w IH]; cbn; [reflexivity|].
    now rewrite <- IH. }
  destruct r as [|c r].
  - unfold all_space. rewrite all_chars_app. fold (all_space W).
    now rewrite HW.
  - cbn in Er. destruct (code c <? 127)%N; [discriminate|].
    destruct (is_space c); discriminate.
Qed.

(** *** What [float] accepts *)

(** When [float(t)] returns, [t] is a numeric text with white space around
    it and underscores in it. *)
Lemma float_of_str_numeric (t : string) (x : float) :
  float_of_str t = Ok x ->
  is_numeric_text (without_underscores (strip t)) = true.
Proof.
  unfold float_of_str.
  destruct (remove_underscores zero (to_ascii t)) as [u|] eqn:Eu;
    [|discriminate].
  destruct (ascii_strtod _) as [[y [|c r]]|] eqn:Ey; try discriminate.
  intros _. apply ascii_strtod_numeric in Ey.
  apply (remove_underscores_lstrip zero) in Eu; [|reflexivity..].
  apply remove_underscores_rstrip in Eu.
  destruct (lstrip_decompose is_c_space (to_ascii t)) as (w1 & Hw1 & E1).
  destruct (rstrip_decompose is_c_space (lstrip_with is_c_space (to_ascii t)))
    as (w2 & Hw2 & E2).
  remember (rstrip_with is_c_space (lstrip_with is_c_space (to_ascii t)))
    as k eqn:Ek.
  rewrite E2 in E1. clear E2 Ek.
  apply remove_underscores_filter in Eu. rewrite Eu in Ey. clear Eu.
  assert (Hk : all_chars is_core_char k = true).
  { apply numeric_token_chars, without_underscores_chars in Ey. exact Ey. }
  enough (E : strip t = k) by now rewrite E.
  unfold to_ascii in E1. destruct (is_ascii_str t).
  - rewrite E1. apply strip_core; auto using c_space_is_space.
  - destruct (transform_spaces _ _ _ Hw1 E1) as (W1 & r1 & -> & HW1 & Er1).
    destruct (transform_core _ _ _ Hk Er1) as (r2 & -> & Er2).
    apply (transform_all_space _ _ Hw2) in Er2.
    now apply strip_core.
Qed.

Lemma float_of_str_raises (t : string) :
  (forall x, float_of_str t <> Ok x) -> float_of_str t = Raise ValueError.
Proof.
  unfold float_of_str. intros H.
  destruct (remove_underscores zero (to_ascii t)); [|reflexivity].
  destruct (ascii_strtod _) as [[y [|c r]]|]; try reflexivity.
  now elim (H y).
Qed.

Lemma percent_text_stripped (s : string) :
  strip (percent_text s) = percent_text s.
Proof.
  unfold percent_text. destruct (endswith (strip s) "%"); apply strip_idem.
Qed.




(** *** Binary digits and shifts *)

Lemma digits_bounds (p : positive) :
  2 ^ (Zpos (digits2_pos p) - 1) <= Zpos p < 2 ^ Zpos (digits2_pos p).
Proof.
  induction p as [p IH|p IH|]; cbn [digits2_pos].
  - rewrite Pos2Z.inj_succ, (Pos2Z.inj_xI p).
    replace (Z.succ (Zpos (digits2_pos p)) - 1)
      with (Z.succ (Zpos (digits2_pos p) - 1)) by lia.
    rewrite !Z.pow_succ_r by lia.
    set (a := 2 ^ (Zpos (digits2_pos p) - 1)) in *.
    set (b := 2 ^ Zpos (digits2_pos p)) in *. clearbody a b. lia.
  - rewrite Pos2Z.inj_succ, (Pos2Z.inj_xO p).
    replace (Z.succ (Zpos (digits2_pos p)) - 1)
      with (Z.succ (Zpos (digits2_pos p) - 1)) by lia.
    rewrite !Z.pow_succ_r by lia.
    set (a := 2 ^ (Zpos (digits2_pos p) - 1)) in *.
    set (b := 2 ^ Zpos (digits2_pos p)) in *. clearbody a b. lia.
  - change (2 ^ 0 <= 1 < 2 ^ 1). rewrite Z.pow_0_r, Z.pow_1_r. lia.
Qed.

Lemma pow2_lt_inv (a b : Z) : 0 <= b -> 2 ^ a < 2 ^ b -> a < b.
Proof.
  intros Hb H. destruct (Z.lt_ge_cases a b) as [|Hab]; [assumption|].
  pose proof (Z.pow_le_mono_r 2 b a ltac:(lia) Hab). lia.
Qed.

Lemma digits_unique (p : positive) (d : Z) :
  2 ^ (d - 1) <= Zpos p < 2 ^ d -> Zpos (digits2_pos p) = d.
Proof.
  intros [Hl Hu]. pose proof (digits_bounds p) as [Hl' Hu'].
  assert (0 < d).
  { destruct (Z.lt_ge_cases 0 d); [assumption|].
    destruct (Z.eq_dec d 0) as [->|]; [cbn in Hu; lia|].
    rewrite Z.pow_neg_r in Hu by lia. lia. }
  assert (d - 1 < Zpos (digits2_pos p)) by (apply pow2_lt_inv; lia).
  assert (Zpos (digits2_pos p) - 1 < d) by (apply pow2_lt_inv; lia).
  lia.
Qed.

Lemma iter_pos_nat {A : Type} (f : A -> A) (n : positive) (x : A) :
  iter_pos f n x = Nat.iter (Pos.to_nat n) f x.
Proof.
  revert x. induction n as [n IH|n IH|]; intros x; cbn [iter_pos].
  - rewrite !IH, Pos2Nat.inj_xI.
    replace (S (2 * Pos.to_nat n))%nat
      with (Pos.to_nat n + (Pos.to_nat n + 1))%nat by lia.
    rewrite !Nat.iter_add. reflexivity.
  - rewrite !IH, Pos2Nat.inj_xO.
    replace (2 * Pos.to_nat n)%nat
      with (Pos.to_nat n + Pos.to_nat n)%nat by lia.
    rewrite Nat.iter_add. reflexivity.
  - reflexivity.
Qed.

Lemma shr_1_nonneg (m : Z) (r s : bool) :
  0 <= m ->
  shr_1 (Build_shr_record m r s) =
  Build_shr_record (m / 2) (Z.odd m) (r || s).
Proof.
  intros Hm. destruct m as [|[p|p|]|p]; try lia; cbn [shr_1].
  - reflexivity.
  - f_equal. rewrite Pos2Z.inj_xI.
    apply Z.div_unique with (r := 1); lia.
  - f_equal. rewrite Pos2Z.inj_xO.
    apply Z.div_unique with (r := 0); lia.
  - reflexivity.
Qed.

Lemma shr_nat (mrs : shr_record) (e n : Z) :
  0 <= n -> shr mrs e n = (Nat.iter (Z.to_nat n) shr_1 mrs, e + n).
Proof.
  intros Hn. destruct n as [|p|p]; try lia; cbn [shr].
  - cbn. now rewrite Z.add_0_r.
  - now rewrite iter_pos_nat.
Qed.

(** After [j] shifts to the right the record holds the quotient by [2 ^ j],
    and its two bits place the remainder [hr + b] against the half of
    [2 ^ j]. *)
Lemma shr_iter (orig : Z) (j : nat) :
  0 <= orig ->
  exists b hr,
    let mrs := Nat.iter j shr_1 (Build_shr_record orig false false) in
    0 <= shr_m mrs /\ 0 <= b /\ 2 * b < 2 ^ Z.of_nat j /\
    2 * hr = (if shr_r mrs then 2 ^ Z.of_nat j else 0) /\
    orig = 2 ^ Z.of_nat j * shr_m mrs + hr + b /\
    shr_s mrs = negb (b =? 0).
Proof.
  intros Ho. induction j as [|j (b & hr & IH)].
  - exists 0, 0. cbv zeta. cbn [Nat.iter nat_rect shr_m shr_r shr_s Z.of_nat].
    rewrite Z.pow_0_r. repeat split; try lia; reflexivity.
  - cbv zeta in IH. cbv zeta. rewrite Nat.iter_succ.
    destruct (Nat.iter j shr_1 (Build_shr_record orig false false))
      as [m r s]. cbn [shr_m shr_r shr_s] in IH.
    destruct IH as (Hm & Hb & Hb2 & Hhr & Ho' & Hs).
    rewrite shr_1_nonneg by exact Hm. cbn [shr_m shr_r shr_s].
    rewrite Nat2Z.inj_succ, Z.pow_succ_r by lia.
    set (P := 2 ^ Z.of_nat j) in *.
    assert (HP : 0 < P) by (apply Z.pow_pos_nonneg; lia).
    pose proof (Z.div2_odd m) as Hdo. rewrite Z.div2_div in Hdo.
    pose proof (Z.div_pos m 2 Hm ltac:(lia)) as Hq.
    set (q := m / 2) in *. clearbody q P.
    exists (hr + b), (if Z.odd m then P else 0).
    assert (Hhr0 : 0 <= hr) by (destruct r; lia).
    repeat split.
    + exact Hq.
    + lia.
    + destruct r; lia.
    + destruct (Z.odd m); lia.
    + destruct (Z.odd m); cbn [Z.b2z] in Hdo; nia.
    + rewrite Hs. destruct r; cbn [orb].
      * symmetry. apply negb_true_iff, Z.eqb_neq. lia.
      * replace (hr + b) with b by lia. reflexivity.
Qed.

(** Rounding the shifted record to nearest: the quotient or its successor,
    within half of [2 ^ j] of the original. *)
Lemma round_after_shift (orig : Z) (j : nat) :
  0 <= orig ->
  let mrs := Nat.iter j shr_1 (Build_shr_record orig false false) in
  let m2 := round_nearest_even (shr_m mrs) (loc_of_shr_record mrs) in
  0 <= shr_m mrs /\
  2 ^ Z.of_nat j * shr_m mrs <= orig < 2 ^ Z.of_nat j * (shr_m mrs + 1) /\
  shr_m mrs <= m2 <= shr_m mrs + 1 /\
  2 * Z.abs (m2 * 2 ^ Z.of_nat j - orig) <= 2 ^ Z.of_nat j.
Proof.
  intros Ho. destruct (shr_iter orig j Ho) as (b & hr & H).
  cbv zeta in *.
  destruct (Nat.iter j shr_1 (Build_shr_record orig false false))
    as [m r s]. cbn [shr_m shr_r shr_s] in *.
  destruct H as (Hm & Hb & Hb2 & Hhr & Ho' & Hs).
  set (P := 2 ^ Z.of_nat j) in *.
  assert (HP : 0 < P) by (apply Z.pow_pos_nonneg; lia).
  clearbody P.
  assert (Hb0 : s = false -> b = 0).
  { intros ->. symmetry in Hs. apply negb_false_iff, Z.eqb_eq in Hs. exact Hs. }
  split; [exact Hm|]. split; [destruct r; nia|].
  destruct r, s; cbn [loc_of_shr_record round_nearest_even];
    try (specialize (Hb0 eq_refl)); try destruct (Z.even m); split; nia.
Qed.

Lemma fexp_eq (e : Z) : fexp prec emax e = Z.max (e - 53) (-1074).
Proof. reflexivity. Qed.

Lemma pow2_pos (n : Z) : 0 <= n -> 0 < 2 ^ n.
Proof. intros. apply Z.pow_pos_nonneg; lia. Qed.

(** [binary_round_aux] on an exact positive mantissa that needs no shift to
    the left: the result is a canonical mantissa [m] and an exponent [e],
    within half a unit of [e] of the value that is rounded, or an infinity
    when [e] is too large. *)
Lemma binary_round_aux_spec (sx : bool) (mx : positive) (ex : Z) :
  ex <= fexp prec emax (Zpos (digits2_pos mx) + ex) ->
  exists m e,
    0 <= m /\ ex <= e /\
    2 * Z.abs (m * 2 ^ (e - ex) - Zpos mx) <= 2 ^ (e - ex) /\
    (forall p, m = Zpos p -> fexp prec emax (Zpos (digits2_pos p) + e) = e) /\
    (m = 0 -> e = -1074) /\
    (0 < m -> -1074 < e -> (2 ^ 54 - 1) * 2 ^ (e - ex) <= 4 * Zpos mx) /\
    binary_round_aux prec emax sx (Zpos mx) ex loc_Exact =
      match m with
      | Z0 => S754_zero sx
      | Zpos p =>
          if e <=? emax - prec then S754_finite sx p e else S754_infinity sx
      | Zneg _ => S754_nan
      end.
Proof.
  intros Hn. unfold binary_round_aux, shr_fexp.
  cbn [Zdigits2 shr_record_of_loc].
  set (d := Zpos (digits2_pos mx)) in *.
  pose proof (digits_bounds mx) as Hd. fold d in Hd.
  rewrite fexp_eq in Hn. rewrite (fexp_eq (d + ex)).
  set (e1 := Z.max (d + ex - 53) (-1074)) in *.
  rewrite shr_nat by lia.
  destruct (round_after_shift (Zpos mx) (Z.to_nat (e1 - ex)) ltac:(lia))
    as (Hm1 & Hq & Hm2 & Hbd).
  rewrite Z2Nat.id in Hq, Hbd by lia.
  set (mrs := Nat.iter (Z.to_nat (e1 - ex)) shr_1
                (Build_shr_record (Zpos mx) false false)) in *.
  set (m1 := shr_m mrs) in *.
  set (m2 := round_nearest_even m1 (loc_of_shr_record mrs)) in *.
  replace (ex + (e1 - ex)) with e1 by lia.
  pose proof (pow2_pos (e1 - ex) ltac:(lia)) as HP.
  assert (Hd53 : 2 ^ d <= 2 ^ 53 * 2 ^ (e1 - ex)).
  { rewrite <- Z.pow_add_r by lia. apply Z.pow_le_mono_r; lia. }
  assert (Hlo : -1074 < e1 -> 2 ^ 52 * 2 ^ (e1 - ex) <= 2 ^ (d - 1)).
  { intros He. rewrite <- Z.pow_add_r by lia. apply Z.pow_le_mono_r; lia. }
  assert (He1 : -1074 <= e1) by (unfold e1; lia).
  assert (Hm1u : m1 < 2 ^ 53).
  { apply (Z.mul_lt_mono_pos_l (2 ^ (e1 - ex))); lia. }
  assert (Hm1l : -1074 < e1 -> 2 ^ 52 <= m1).
  { intros He. specialize (Hlo He).
    enough (2 ^ 52 < m1 + 1) by lia.
    apply (Z.mul_lt_mono_pos_l (2 ^ (e1 - ex))); lia. }
  clearbody m2 m1. clear mrs.
  destruct m2 as [|p2|p2]; [| |lia].
  - (* rounded to zero *)
    exists 0, e1. cbn [Zdigits2]. rewrite fexp_eq.
    assert (Hle : Z.max (0 + e1 - 53) (-1074) - e1 <= 0) by lia.
    destruct (Z.max (0 + e1 - 53) (-1074) - e1) as [|q|q] eqn:Eq; try lia.
    cbn [shr shr_m]. repeat split; try lia; exact Hbd.
  - cbn [Zdigits2]. rewrite fexp_eq.
    pose proof (digits_bounds p2) as Hd2.
    set (d2 := Zpos (digits2_pos p2)) in *.
    destruct (Z.eq_dec (Zpos p2) (2 ^ 53)) as [E53|N53].
    + (* the mantissa reached 2^53: one more shift *)
      assert (Ed2 : d2 = 54).
      { apply digits_unique. rewrite E53. split; [|apply Z.pow_lt_mono_r]; lia. }
      replace (Z.max (d2 + e1 - 53) (-1074) - e1) with 1 by lia.
      cbn [shr iter_pos]. rewrite shr_1_nonneg by lia. cbn [shr_m].
      rewrite E53. change (2 ^ 53 / 2) with (Zpos (Z.to_pos (2 ^ 52))).
      exists (Zpos (Z.to_pos (2 ^ 52))), (e1 + 1).
      split; [lia|]. split; [lia|]. split.
      * replace (e1 + 1 - ex) with (Z.succ (e1 - ex)) by lia.
        rewrite Z.pow_succ_r by lia.
        change (Zpos (Z.to_pos (2 ^ 52))) with (2 ^ 52).
        rewrite E53 in Hbd. change (2 ^ 53) with (2 * 2 ^ 52) in Hbd. nia.
      * split; [|split; [lia|split; [|reflexivity]]].
        -- intros p [= <-]. rewrite fexp_eq.
           change (Zpos (digits2_pos 4503599627370496)) with 53. lia.
        -- intros _ _. replace (e1 + 1 - ex) with (Z.succ (e1 - ex)) by lia.
           rewrite Z.pow_succ_r by lia.
           rewrite E53 in Hbd. lia.
    + assert (Hd2u : d2 <= 53).
      { assert (Zpos p2 < 2 ^ 53) by lia.
        assert (d2 - 1 < 53) by (apply pow2_lt_inv; lia). lia. }
      assert (Hd2l : -1074 < e1 -> 53 <= d2).
      { intros He. specialize (Hm1l He).
        assert (52 < d2) by (apply pow2_lt_inv; lia). lia. }
      assert (E0 : Z.max (d2 + e1 - 53) (-1074) = e1) by lia.
      rewrite E0, Z.sub_diag. cbn [shr shr_m].
      exists (Zpos p2), e1.
      split; [lia|]. split; [lia|]. split; [exact Hbd|].
      split; [|split; [lia|split; [|reflexivity]]].
      * intros p [= <-]. rewrite fexp_eq. exact E0.
      * intros _ He. specialize (Hm1l He).
        assert (2 ^ 52 * 2 ^ (e1 - ex) <= 2 ^ (e1 - ex) * m1)
          by (rewrite (Z.mul_comm (2 ^ 52)); apply Z.mul_le_mono_nonneg_l; lia).
        change (2 ^ 54 - 1) with (4 * 2 ^ 52 - 1). lia.
Qed.

(** A canonical mantissa is kept as it is. *)
Lemma binary_round_aux_exact (sx : bool) (m : positive) (e : Z) :
  fexp prec emax (Zpos (digits2_pos m) + e) = e ->
  binary_round_aux prec emax sx (Zpos m) e loc_Exact =
  if e <=? emax - prec then S754_finite sx m e else S754_infinity sx.
Proof.
  intros Hc. unfold binary_round_aux, shr_fexp.
  cbn [Zdigits2 shr_record_of_loc]. rewrite Hc, Z.sub_diag.
  cbn [shr shr_m loc_of_shr_record round_nearest_even Zdigits2 shr_record_of_loc].
  rewrite Hc, Z.sub_diag. reflexivity.
Qed.

Lemma canonical_digits (m : positive) (e : Z) :
  fexp prec emax (Zpos (digits2_pos m) + e) = e ->
  -1074 <= e /\ Zpos (digits2_pos m) <= 53 /\
  (-1074 < e -> Zpos (digits2_pos m) = 53).
Proof. rewrite fexp_eq. lia. Qed.

Lemma bounded_spec (m : positive) (e : Z) :
  bounded prec emax m e = true <->
  fexp prec emax (Zpos (digits2_pos m) + e) = e /\ e <= 971.
Proof.
  unfold bounded, canonical_mantissa.
  rewrite andb_true_iff, Z.eqb_eq, Z.leb_le. reflexivity.
Qed.

Lemma binary_round_aux_rounds (sx : bool) (mx : positive) (ex : Z) :
  ex <= fexp prec emax (Zpos (digits2_pos mx) + ex) ->
  rounds_to sx mx ex (binary_round_aux prec emax sx (Zpos mx) ex loc_Exact).
Proof.
  intros Hn.
  destruct (binary_round_aux_spec sx mx ex Hn)
    as (m & e & Hm & Hee & Hbd & Hc & Hz & Hlo & ->).
  destruct m as [|p|p]; [| |lia].
  - cbn [rounds_to]. rewrite (Hz eq_refl) in Hbd. split; [reflexivity|].
    rewrite Z.mul_0_l, Z.sub_0_l, Z.abs_opp in Hbd. lia.
  - specialize (Hc p eq_refl).
    destruct (Z.leb_spec e (emax - prec)) as [He|He]; cbn [rounds_to].
    + split; [reflexivity|]. split; [apply bounded_spec; split; [exact Hc|exact He]|].
      destruct (Z.leb_spec ex e); [|lia].
      split; [exact Hbd | apply Hlo; lia].
    + split; [reflexivity|]. change (emax - prec) with 971 in He.
      destruct (canonical_digits p e Hc) as (_ & _ & _).
      specialize (Hlo ltac:(lia) ltac:(lia)).
      pose proof (pow2_pos (e - ex) ltac:(lia)) as HP.
      destruct (Z.leb_spec ex 970) as [Hx|Hx].
      * assert (4 * 2 ^ (970 - ex) <= 2 ^ (e - ex)).
        { change 4 with (2 ^ 2). rewrite <- Z.pow_add_r by lia.
          apply Z.pow_le_mono_r; lia. }
        nia.
      * assert (4 <= 2 ^ (e - ex) * 2 ^ (ex - 970)).
        { change 4 with (2 ^ 2). rewrite <- Z.pow_add_r by lia.
          apply Z.pow_le_mono_r; lia. }
        pose proof (pow2_pos (ex - 970) ltac:(lia)). nia.
Qed.

Lemma shift_pos_value (k m : positive) :
  Zpos (Pos.iter xO m k) = Zpos m * 2 ^ Zpos k.
Proof.
  change (Pos.iter xO m k) with (shift_pos k m).
  rewrite shift_pos_correct. change (Z.pow_pos 2 k) with (2 ^ Zpos k). lia.
Qed.

Lemma digits_shift (k m : positive) :
  Zpos (digits2_pos (Pos.iter xO m k)) = Zpos (digits2_pos m) + Zpos k.
Proof.
  apply digits_unique. rewrite shift_pos_value.
  pose proof (digits_bounds m) as [Hl Hu].
  replace (Zpos (digits2_pos m) + Zpos k - 1)
    with (Zpos (digits2_pos m) - 1 + Zpos k) by lia.
  rewrite !Z.pow_add_r by lia.
  pose proof (pow2_pos (Zpos k) ltac:(lia)). nia.
Qed.

Lemma digits_pow2_le (m : positive) (k : Z) :
  k <= Zpos (digits2_pos m) -> 2 ^ (k - 1) <= Zpos m.
Proof.
  intros Hk. pose proof (digits_bounds m) as [Hl _].
  destruct (Z.le_gt_cases 1 k).
  - pose proof (Z.pow_le_mono_r 2 (k - 1) (Zpos (digits2_pos m) - 1)
                  ltac:(lia) ltac:(lia)). lia.
  - rewrite Z.pow_neg_r by lia. lia.
Qed.

(** [binary_round]: the mantissa is first shifted to the left when it is
    too short, which is exact. *)
Lemma binary_round_rounds (sx : bool) (mx : positive) (ex : Z) :
  rounds_to sx mx ex (binary_round prec emax sx mx ex).
Proof.
  unfold binary_round, shl_align.
  set (f := fexp prec emax (Zpos (digits2_pos mx) + ex)).
  destruct (f - ex) as [|k|k] eqn:Ek;
    try (apply binary_round_aux_rounds; fold f; lia).
  assert (Hc : fexp prec emax (Zpos (digits2_pos (Pos.iter xO mx k)) + f) = f).
  { rewrite digits_shift. unfold f at 2.
    f_equal. lia. }
  rewrite binary_round_aux_exact by exact Hc.
  pose proof (shift_pos_value k mx) as Hv.
  assert (Ekx : ex - f = Zpos k) by lia.
  destruct (Z.leb_spec f (emax - prec)) as [Hf|Hf]; cbn [rounds_to].
  - split; [reflexivity|]. split; [apply bounded_spec; now split|].
    destruct (Z.leb_spec ex f); [lia|]. now rewrite Ekx.
  - split; [reflexivity|]. change (emax - prec) with 971 in Hf.
    destruct (Z.leb_spec ex 970); [lia|].
    destruct (canonical_digits _ _ Hc) as (_ & _ & Hd).
    pose proof (digits_pow2_le (Pos.iter xO mx k) 53 ltac:(lia)) as Hm.
    rewrite Hv in Hm.
    replace (ex - 970) with (Zpos k + (f - 970)) by lia.
    rewrite Z.pow_add_r by lia.
    assert (2 ^ 2 <= 2 ^ (f - 970)) by (apply Z.pow_le_mono_r; lia).
    change (2 ^ 2) with 4 in *. change (2 ^ (53 - 1)) with (2 ^ 52) in Hm.
    change (2 ^ 54 - 1) with (4 * 2 ^ 52 - 1). nia.
Qed.

Lemma float_of_int_rounds (z : Z) :
  z <> 0 ->
  match float_of_int z with
  | Ok y => is_finite y = true /\ rounds_to (z <? 0) (Z.to_pos (Z.abs z)) 0 y
  | Raise e => e = OverflowError /\ (2 ^ 54 - 1) * 2 ^ 970 <= Z.abs z
  end.
Proof.
  intros Hz. unfold float_of_int, binary_normalize.
  destruct z as [|p|p]; [now elim Hz| |].
  - pose proof (binary_round_rounds false p 0) as H.
    destruct (binary_round prec emax false p 0); cbn [is_finite rounds_to] in *.
    + split; [reflexivity | exact H].
    + split; [reflexivity|]. destruct H as [_ H]. exact H.
    + contradiction.
    + split; [reflexivity | exact H].
  - pose proof (binary_round_rounds true p 0) as H.
    destruct (binary_round prec emax true p 0); cbn [is_finite rounds_to] in *.
    + split; [reflexivity | exact H].
    + split; [reflexivity|]. destruct H as [_ H]. exact H.
    + contradiction.
    + split; [reflexivity | exact H].
Qed.

(** The product of two canonical mantissas needs no shift to the left. *)
Lemma mul_no_left_shift (mx my : positive) (ex ey : Z) :
  fexp prec emax (Zpos (digits2_pos mx) + ex) = ex ->
  fexp prec emax (Zpos (digits2_pos my) + ey) = ey ->
  ex + ey <= fexp prec emax (Zpos (digits2_pos (mx * my)) + (ex + ey)).
Proof.
  intros Hx Hy.
  destruct (canonical_digits _ _ Hx) as (Hx1 & Hx2 & Hx3).
  destruct (canonical_digits _ _ Hy) as (Hy1 & Hy2 & Hy3).
  rewrite fexp_eq.
  pose proof (digits_bounds mx) as [Hlx _].
  pose proof (digits_bounds my) as [Hly _].
  pose proof (digits_bounds (mx * my)) as [_ Hu].
  rewrite Pos2Z.inj_mul in Hu.
  set (dx := Zpos (digits2_pos mx)) in *.
  set (dy := Zpos (digits2_pos my)) in *.
  set (D := Zpos (digits2_pos (mx * my))) in *.
  assert (HD : dx + dy - 2 < D).
  { apply pow2_lt_inv; [lia|].
    replace (dx + dy - 2) with ((dx - 1) + (dy - 1)) by lia.
    rewrite Z.pow_add_r by lia.
    pose proof (pow2_pos (dx - 1) ltac:(lia)).
    pose proof (pow2_pos (dy - 1) ltac:(lia)). nia. }
  lia.
Qed.

Lemma float_mul_rounds (sx sy : bool) (mx my : positive) (ex ey : Z) :
  fexp prec emax (Zpos (digits2_pos mx) + ex) = ex ->
  fexp prec emax (Zpos (digits2_pos my) + ey) = ey ->
  rounds_to (xorb sx sy) (mx * my) (ex + ey)
    (float_mul (S754_finite sx mx ex) (S754_finite sy my ey)).
Proof.
  intros Hx Hy. unfold float_mul. cbn [SFmul].
  apply binary_round_aux_rounds. now apply mul_no_left_shift.
Qed.

(** *** The annual rewards: a rounded product *)

Lemma rounds_to_not_zero (s s' : bool) (num : positive) (x : float) :
  rounds_to s num 0 x -> x <> S754_zero s'.
Proof.
  intros H ->. cbn [rounds_to] in H. destruct H as [_ H].
  change (2 ^ (-1074 - 0)) with 0 in H. lia.
Qed.




(** *** A negative TVL *)

Lemma wei_per_eth_float :
  float_of_int WEI_PER_ETH = Ok (S754_finite false 7812500000000000 7).
Proof. vm_compute. reflexivity. Qed.

(** What multiplying by the double [1e18] gives. *)
Lemma float_mul_1e18 (s : bool) (m : positive) (e : Z) :
  rounds_to s (m * 7812500000000000) (e + 7)
    (float_mul (S754_finite s m e) (S754_finite false 7812500000000000 7)).
Proof.
  unfold float_mul. cbn [SFmul]. rewrite xorb_false_r.
  apply binary_round_aux_rounds. rewrite fexp_eq.
  pose proof (digits_bounds (m * 7812500000000000)) as [_ Hu].
  assert (52 < Zpos (digits2_pos (m * 7812500000000000))).
  { apply pow2_lt_inv; [lia|]. rewrite Pos2Z.inj_mul in Hu.
    assert (2 ^ 52 <= 7812500000000000) by (vm_compute; discriminate). nia. }
  lia.
Qed.

Lemma bounded_mantissa (m : positive) (e : Z) :
  bounded prec emax m e = true -> Zpos m <= 2 ^ 53 - 1 /\ e <= 971.
Proof.
  intros [Hc He]%bounded_spec. split; [|exact He].
  destruct (canonical_digits _ _ Hc) as (_ & Hd & _).
  pose proof (digits_bounds m) as [_ Hu].
  pose proof (Z.pow_le_mono_r 2 _ 53 ltac:(lia) Hd). lia.
Qed.

(** The integral part of a double is within the doubles. *)
Lemma int_of_float_bounded (s : bool) (m : positive) (e : Z) :
  bounded prec emax m e = true ->
  exists a, int_of_float (S754_finite s m e) = Ok (if s then - a else a) /\
    0 <= a <= (2 ^ 53 - 1) * 2 ^ 971.
Proof.
  intros [Hm He]%bounded_mantissa. cbn [int_of_float].
  eexists. split; [reflexivity|].
  destruct (Z.leb_spec 0 e) as [H0|H0].
  - pose proof (Z.pow_le_mono_r 2 e 971 ltac:(lia) He).
    pose proof (pow2_pos e H0). split; [lia|].
    apply Z.mul_le_mono_nonneg; lia.
  - pose proof (pow2_pos (- e) ltac:(lia)) as HP. split.
    + apply Z.div_pos; lia.
    + assert (Zpos m / 2 ^ (- e) <= Zpos m)
        by (apply Z.div_le_upper_bound; nia).
      assert (1 <= 2 ^ 971) by (pose proof (pow2_pos 971); lia).
      nia.
Qed.

(** An int that is not positive and within the doubles converts to a float
    that is a zero or negative. *)
Lemma float_of_nonpos_int (t : Z) :
  - ((2 ^ 53 - 1) * 2 ^ 971) <= t <= 0 ->
  exists y, float_of_int t = Ok y /\
    (t = 0 /\ y = S754_zero false \/
     t < 0 /\ exists my ey, y = S754_finite true my ey /\
                bounded prec emax my ey = true).
Proof.
  intros Ht. destruct (Z.eq_dec t 0) as [->|Hnz].
  - exists (S754_zero false). split; [reflexivity | now left].
  - pose proof (float_of_int_rounds t Hnz) as H.
    destruct (float_of_int t) as [y|er].
    + exists y. split; [reflexivity|]. right. split; [lia|].
      destruct H as [Hf Hr].
      replace (t <? 0) with true in Hr by (symmetry; apply Z.ltb_lt; lia).
      destruct y as [sy|sy| |sy my ey]; try discriminate.
      * now elim (rounds_to_not_zero _ sy _ _ Hr).
      * destruct Hr as (-> & Hb & _). eauto.
    + destruct H as [_ H]. exfalso.
      assert ((2 ^ 53 - 1) * 2 ^ 971 < (2 ^ 54 - 1) * 2 ^ 970)
        by (vm_compute; reflexivity).
      lia.
Qed.

Lemma reward_rate_nonpos (a : Z) :
  a <= 0 ->
  exists r, reward_rate_wei_per_sec_of a = Ok r /\ r <= 0 /\ (r < 0 <-> a < 0).
Proof.
  intros Ha. unfold reward_rate_wei_per_sec_of, SECONDS_PER_YEAR.
  rewrite floordiv_pos by lia. eexists. split; [reflexivity|].
  destruct (Z.eq_dec a 0) as [->|Hn].
  - cbn. lia.
  - assert (a / 31536000 < 0) by (apply Z.div_lt_upper_bound; lia). lia.
Qed.

(** The rest of the computation once [tvl_wei] is known to be an int that is
    not positive and within the doubles. *)
Lemma rates_from_tvl_wei (t : Z) (apy : float) :
  - ((2 ^ 53 - 1) * 2 ^ 971) <= t <= 0 ->
  is_positive apy = true -> is_finite apy = true ->
  valid_binary prec emax apy = true ->
  exists y, float_of_int t = Ok y /\
    if is_finite (float_mul y apy)
    then exists a r,
      bind (annual_rewards_wei_of t apy) (fun a =>
        bind (reward_rate_wei_per_sec_of a) (fun r => Ok (t, a, r))) =
        Ok (t, a, r) /\
      a <= 0 /\ r <= 0 /\ (r < 0 <-> a < 0)
    else
      bind (annual_rewards_wei_of t apy) (fun a =>
        bind (reward_rate_wei_per_sec_of a) (fun r => Ok (t, a, r))) =
        Raise OverflowError.
Proof.
  intros Ht Hpos Hfin Hv.
  destruct apy as [sa|sa| |sa ma ea]; try discriminate.
  destruct sa; [discriminate|]. cbn [valid_binary] in Hv.
  destruct (float_of_nonpos_int t Ht) as (y & Ey & Hy).
  exists y. split; [exact Ey|].
  unfold annual_rewards_wei_of, int_mul_float. rewrite Ey. cbn [bind].
  destruct Hy as [[-> ->] | (Hneg & my & ey & -> & Hby)].
  - cbn. exists 0, 0. repeat split; lia.
  - pose proof Hby as [Hcy _]%bounded_spec.
    pose proof Hv as [Hca _]%bounded_spec.
    pose proof (float_mul_rounds true false my ma ey ea Hcy Hca) as Hr.
    cbn [xorb] in Hr.
    destruct (float_mul (S754_finite true my ey) (S754_finite false ma ea))
      as [s2|s2| |s2 m2 e2]; cbn [rounds_to is_finite] in *.
    + exists 0, 0. cbn. repeat split; lia.
    + reflexivity.
    + contradiction.
    + destruct Hr as (-> & Hb2 & _).
      destruct (int_of_float_bounded true m2 e2 Hb2) as (a & -> & Ha).
      cbn [bind].
      destruct (reward_rate_nonpos (- a) ltac:(lia)) as (r & -> & Hr1 & Hr2).
      cbn [bind]. exists (- a), r. repeat split; try lia; apply Hr2.
Qed.

(** C7 (amended): for a negative [tvl_eth] and a finite positive [apy]:
    when [tvl_eth * 10^18] is beyond the doubles the computation raises
    [OverflowError]; otherwise [tvl_wei] is not positive and converts back
    to a float [y]; when [y * apy] is beyond the doubles the computation
    raises [OverflowError]; otherwise it completes, [annual_rewards_wei]
    and the rate are not positive, and the rate is negative exactly when
    [annual_rewards_wei] is. *)
Theorem negative_tvl_rates (tvl_eth apy : float)
    (Hneg : is_negative tvl_eth = true)
    (Hpos : is_positive apy = true) (Hfin : is_finite apy = true)
    (Hv : valid_binary prec emax apy = true) :
  exists p, float_mul_int tvl_eth WEI_PER_ETH = Ok p /\
    if is_finite p
    then exists t y,
      tvl_wei_of tvl_eth = Ok t /\ t <= 0 /\ float_of_int t = Ok y /\
      if is_finite (float_mul y apy)
      then exists a r,
        rates tvl_eth apy = Ok (t, a, r) /\
        a <= 0 /\ r <= 0 /\ (r < 0 <-> a < 0)
      else rates tvl_eth apy = Raise OverflowError
    else rates tvl_eth apy = Raise OverflowError.
Proof.
  unfold rates, tvl_wei_of, float_mul_int.
  rewrite wei_per_eth_float. cbn [bind].
  eexists. split; [reflexivity|].
  destruct tvl_eth as [s|s| |s m e]; try discriminate;
    destruct s; try discriminate.
  - reflexivity.
  - pose proof (float_mul_1e18 true m e) as Hr.
    destruct (float_mul (S754_finite true m e)
                (S754_finite false 7812500000000000 7))
      as [s1|s1| |s1 m1 e1]; cbn [rounds_to is_finite] in *.
    + exists 0. cbn [int_of_float bind].
      destruct (rates_from_tvl_wei 0 apy ltac:(lia) Hpos Hfin Hv)
        as (y & Ey & H).
      exists y. repeat split; [lia | exact Ey | exact H].
    + reflexivity.
    + contradiction.
    + destruct Hr as (-> & Hb1 & _).
      destruct (int_of_float_bounded true m1 e1 Hb1) as (a & -> & Ha).
      cbn [bind]. exists (- a).
      destruct (rates_from_tvl_wei (- a) apy ltac:(lia) Hpos Hfin Hv)
        as (y & Ey & H).
      exists y. repeat split; [lia | exact Ey | exact H].
Qed.

Lemma negative_tvl_rates_witness :
  exists p,
    float_mul_int (S754_finite true 4503599627370496 (-52)) WEI_PER_ETH = Ok p /\
    if is_finite p
    then exists t y,
      tvl_wei_of (S754_finite true 4503599627370496 (-52)) = Ok t /\
      t <= 0 /\ float_of_int t = Ok y /\
      if is_finite (float_mul y (S754_finite false 5764607523034235 (-56)))
      then exists a r,
        rates (S754_finite true 4503599627370496 (-52))
          (S754_finite false 5764607523034235 (-56)) = Ok (t, a, r) /\
        a <= 0 /\ r <= 0 /\ (r < 0 <-> a < 0)
      else rates (S754_finite true 4503599627370496 (-52))
             (S754_finite false 5764607523034235 (-56)) = Raise OverflowError
    else rates (S754_finite true 4503599627370496 (-52))
           (S754_finite false 5764607523034235 (-56)) = Raise OverflowError.
Proof.
  apply (negative_tvl_rates (S754_finite true 4503599627370496 (-52))
           (S754_finite false 5764607523034235 (-56))); reflexivity.
Defined.

(** C7 as stated fails: the TVL [-1e-30] is negative and the APY [8%] is
    positive, and the rate of that run is [0]; the TVL [-1e300] is
    negative, and that run raises [OverflowError]. *)
Lemma negative_tvl_zero_rate_and_overflow :
  (exists tvl_eth apy,
     float_of_str (strip "-1e-30") = Ok tvl_eth /\
     is_negative tvl_eth = true /\
     parse_percent "8%" = Ok apy /\ is_positive apy = true /\
     rates tvl_eth apy = Ok (0, 0, 0)) /\
  values ["-1e-30"; "8%"] = Ok (0, 0, 0) /\
  values ["-1e300"; "8%"] = Raise OverflowError.
Proof.
  split; [|split; vm_compute; reflexivity].
  eexists _, _. repeat split; vm_compute; reflexivity.
Qed.

(** ** More on the script *)

(** *** The errors of a run *)

Lemma float_of_str_error (t : string) (e : exn) :
  float_of_str t = Raise e -> e = ValueError.
Proof.
  unfold float_of_str.
  destruct (remove_underscores zero (to_ascii t)); [|now intros [= <-]].
  destruct (ascii_strtod _) as [[y [|c r]]|]; try discriminate;
    now intros [= <-].
Qed.



Lemma int_of_float_error (x : float) (e : exn) :
  int_of_float x = Raise e -> e = OverflowError \/ e = ValueError.
Proof. destruct x; cbn; intros [= <-]; auto. Qed.

Lemma float_of_int_error (z : Z) (e : exn) :
  float_of_int z = Raise e -> e = OverflowError.
Proof.
  unfold float_of_int. destruct (is_finite _); [discriminate|].
  now intros [= <-].
Qed.

Lemma reward_rate_total (a : Z) :
  reward_rate_wei_per_sec_of a = Ok (a / 31536000).
Proof.
  unfold reward_rate_wei_per_sec_of, SECONDS_PER_YEAR.
  apply floordiv_pos. lia.
Qed.

Lemma rates_error (tvl_eth apy : float) (e : exn) :
  rates tvl_eth apy = Raise e -> e = OverflowError \/ e = ValueError.
Proof.
  unfold rates, tvl_wei_of, annual_rewards_wei_of, float_mul_int,
    int_mul_float.
  rewrite wei_per_eth_float. cbn [bind].
  destruct (int_of_float _) as [t|e1] eqn:E1; cbn [bind].
  - destruct (float_of_int t) as [y|e2] eqn:E2; cbn [bind].
    + destruct (int_of_float (float_mul y apy)) as [a|e3] eqn:E3; cbn [bind].
      * rewrite reward_rate_total. discriminate.
      * intros [= <-]. exact (int_of_float_error _ _ E3).
    + intros [= <-]. left. exact (float_of_int_error _ _ E2).
  - intros [= <-]. exact (int_of_float_error _ _ E1).
Qed.

(** X4: a run that fails has printed nothing, its error is the error of the
    reads and assignments, and it is an [EOFError], a [ValueError] or an
    [OverflowError]: no division of the script can fail. *)
Theorem failed_run_prints_nothing (lines : list string) (e : exn) (w : world)
    (H : run lines = (Raise e, w)) :
  values lines = Raise e /\ printed (trace w) = [] /\
  (e = EOFError \/ e = ValueError \/ e = OverflowError).
Proof.
  unfold run, main, io_bind in H. unfold values.
  destruct (read_rates (start lines)) as [[[[t a] r]|e'] w'] eqn:E.
  - discriminate.
  - injection H as <- <-. split; [reflexivity|].
    unfold read_rates, io_bind, input, lift, start, emit in E.
    cbn [stdin trace app] in E.
    destruct lines as [|l1 rest]; [injection E as <- <-; cbn; auto|].
    cbn [stdin trace] in E.
    destruct (float_of_str (strip l1)) as [x|e1] eqn:E1.
    + destruct rest as [|l2 rest]; cbn [stdin trace app] in E;
        [injection E as <- <-; cbn; auto|].
      destruct (parse_percent l2) as [apy|e2] eqn:E2.
      * destruct (rates x apy) as [v|e3] eqn:E3; [discriminate|].
        injection E as <- <-. split; [reflexivity|].
        destruct (rates_error _ _ _ E3) as [-> | ->]; auto.
      * injection E as <- <-. split; [reflexivity|].
        rewrite parse_percent_text in E2.
        destruct (float_of_str (percent_text l2)) as [x2|e4] eqn:E4;
          cbn [bind] in E2; [discriminate E2|].
        injection E2 as <-. apply float_of_str_error in E4 as ->. auto.
    + injection E as <- <-. split; [reflexivity|].
      apply float_of_str_error in E1 as ->. auto.
Qed.

Lemma failed_run_prints_nothing_witness :
  values ["-1e300"; "8%"] = Raise OverflowError /\
  printed (trace (snd (run ["-1e300"; "8%"]))) = [] /\
  (OverflowError = EOFError \/ OverflowError = ValueError \/
   OverflowError = OverflowError).
Proof.
  apply (failed_run_prints_nothing ["-1e300"; "8%"]).
  vm_compute. reflexivity.
Defined.



(** X6: with no APY line the run fails with [EOFError] after both prompts,
    whatever the TVL that was read; with no line at all, after the first
    prompt. *)
Theorem missing_line_is_eof (l1 : string) (x : float)
    (H : float_of_str (strip l1) = Ok x) :
  run [l1] =
    (Raise EOFError,
     {| stdin := [];
        trace := [Prompt "expected ETH TVL: ";
                  Prompt "APY (e.g. 8 or 8%): "] |}) /\
  run [] =
    (Raise EOFError,
     {| stdin := []; trace := [Prompt "expected ETH TVL: "] |}).
Proof.
  split; [|reflexivity].
  unfold run, main, read_rates, io_bind, input, lift, start, emit.
  cbn [stdin trace app]. rewrite H. reflexivity.
Qed.

Lemma missing_line_is_eof_witness :
  run ["1000.0"] =
    (Raise EOFError,
     {| stdin := [];
        trace := [Prompt "expected ETH TVL: ";
                  Prompt "APY (e.g. 8 or 8%): "] |}) /\
  run [] =
    (Raise EOFError,
     {| stdin := []; trace := [Prompt "expected ETH TVL: "] |}).
Proof.
  apply (missing_line_is_eof "1000.0" (S754_finite false 8796093022208000 (-43))).
  vm_compute. reflexivity.
Defined.

(** X7: a run reads two lines at most: the lines after the second do not
    change its result or its trace, and they are left on the input, behind
    what the run on the first two lines leaves. *)
Theorem run_reads_two_lines (l1 l2 : string) (rest : list string) :
  run (l1 :: l2 :: rest) =
    (fst (run [l1; l2]),
     {| stdin := stdin (snd (run [l1; l2])) ++ rest;
        trace := trace (snd (run [l1; l2])) |}).
Proof.
  unfold run, main, read_rates, io_bind, input, lift, start, emit, print.
  cbn [stdin trace app].
  destruct (float_of_str (strip l1)); [|reflexivity].
  destruct (parse_percent l2); [|reflexivity].
  destruct (rates a a0) as [[[t an] r]|]; reflexivity.
Qed.

(** X8: white space around the TVL line and around the APY line changes
    neither the result of a run nor what it shows and prints. *)
Theorem run_ignores_padding (w1 w2 w3 w4 l1 l2 : string) (rest : list string)
    (H1 : all_space w1 = true) (H2 : all_space w2 = true)
    (H3 : all_space w3 = true) (H4 : all_space w4 = true) :
  let padded := run ((w1 ++ l1 ++ w2) :: (w3 ++ l2 ++ w4) :: rest) in
  let plain := run (l1 :: l2 :: rest) in
  fst padded = fst plain /\ trace (snd padded) = trace (snd plain).
Proof.
  assert (E : parse_percent (w3 ++ l2 ++ w4) = parse_percent l2).
  { rewrite !parse_percent_text. unfold percent_text.
    now rewrite strip_surrounded. }
  cbv zeta.
  unfold run, main, read_rates, io_bind, input, lift, start, emit, print.
  cbn [stdin trace app].
  rewrite (strip_surrounded w1 l1 w2 H1 H2).
  destruct (float_of_str (strip l1)); [|split; reflexivity].
  cbn [stdin trace app]. rewrite E.
  destruct (parse_percent l2); [|split; reflexivity].
  destruct (rates a a0) as [[[t an] r]|]; split; reflexivity.
Qed.

Lemma run_ignores_padding_witness :
  let padded := run ((" " ++ "1000.0" ++ "  ") :: ("  " ++ "8%" ++ " ") :: []) in
  let plain := run ("1000.0" :: "8%" :: []) in
  fst padded = fst plain /\ trace (snd padded) = trace (snd plain).
Proof. apply (run_ignores_padding " " "  " "  " " "); reflexivity. Defined.

(** *** Characters that [float] refuses *)

(** When [float(t)] returns, [t] without the white space around it holds
    digits, signs, points, letters and underscores only. *)
Lemma float_of_str_core_chars (t : string) (x : float) :
  float_of_str t = Ok x -> all_chars is_core_char (strip t) = true.
Proof.
  intros H%float_of_str_numeric.
  now apply without_underscores_chars, numeric_token_chars.
Qed.

(** [parse_percent] raises [ValueError] when the text it hands to [float]
    holds a character that is no digit, sign, point, letter or underscore. *)
Lemma parse_percent_core_chars (s : string) :
  all_chars is_core_char (percent_text s) = false ->
  parse_percent s = Raise ValueError.
Proof.
  intros H. rewrite parse_percent_text, float_of_str_raises; [reflexivity|].
  intros x Hx%float_of_str_core_chars.
  rewrite percent_text_stripped in Hx. congruence.
Qed.

Lemma append_snoc (a : string) (c : ascii) (b : string) :
  a ++ String c b = (a ++ String c "") ++ b.
Proof. induction a as [|d a IH]; cbn; [reflexivity | now rewrite IH]. Qed.

(** X2: one percent sign is taken off, no more: a text that ends in two
    percent signs is refused, whatever stands before them. *)
Theorem parse_percent_double_sign (t : string) :
  parse_percent (t ++ "%%") = Raise ValueError.
Proof.
  apply parse_percent_core_chars.
  assert (E : percent_text (t ++ "%%") = lstrip_with is_space t ++ "%").
  { unfold percent_text, strip.
    rewrite (lstrip_app_keep is_space t "%" "%"%char eq_refl).
    rewrite (append_snoc (lstrip_with is_space t) "%" "%").
    rewrite (rstrip_app_keep is_space _ "" "%"%char eq_refl eq_refl).
    rewrite endswith_snoc, slice_to_snoc.
    rewrite (lstrip_app_keep is_space _ "" "%"%char eq_refl), lstrip_idem.
    apply (rstrip_app_keep is_space _ "" "%"%char eq_refl eq_refl). }
  rewrite E, all_chars_app. apply andb_false_r.
Qed.

(** *** The rate over all integers *)

(** X9: the rate is defined for every integer [annual_rewards_wei], negative
    ones too: it is the floor of the quotient by [31536000], and it does
    not go down when the annual rewards go up. *)
Theorem reward_rate_monotone (a b : Z) (H : a <= b) :
  exists ra rb,
    reward_rate_wei_per_sec_of a = Ok ra /\
    reward_rate_wei_per_sec_of b = Ok rb /\
    ra <= rb /\
    31536000 * ra <= a < 31536000 * (ra + 1).
Proof.
  exists (a / 31536000), (b / 31536000).
  rewrite !reward_rate_total. repeat split.
  - apply Z.div_le_mono; lia.
  - apply Z.mul_div_le. lia.
  - pose proof (Z.mul_succ_div_gt a 31536000 ltac:(lia)). lia.
Qed.

Lemma reward_rate_monotone_witness :
  exists ra rb,
    reward_rate_wei_per_sec_of (-31536001) = Ok ra /\
    reward_rate_wei_per_sec_of 31535999 = Ok rb /\
    ra <= rb /\
    31536000 * ra <= -31536001 < 31536000 * (ra + 1).
Proof. apply (reward_rate_monotone (-31536001) 31535999). lia. Defined.

(** *** Plain integers are read *)

Lemma digit_more_facts (c : ascii) :
  is_digit c = true ->
  is_space c = false /\ (code c <? 128)%N = true /\
  Ascii.eqb c "-" = false /\ Ascii.eqb c "+" = false /\
  Ascii.eqb c "%" = false.
Proof.
  destruct c as [[] [] [] [] [] [] [] []]; vm_compute;
    intuition discriminate.
Qed.

Lemma digits_ascii (d : string) :
  all_chars is_digit d = true -> is_ascii_str d = true.
Proof.
  unfold is_ascii_str. induction d as [|c d IH]; cbn; [reflexivity|].
  intros [Hc Hd]%andb_prop.
  destruct (digit_more_facts c Hc) as (_ & -> & _). exact (IH Hd).
Qed.

Lemma digits_no_underscore (p : ascii) (d : string) :
  Ascii.eqb p "_" = false -> all_chars is_digit d = true ->
  remove_underscores p d = Some d.
Proof.
  revert p. induction d as [|c d IH]; intros p Hp; cbn.
  - now rewrite Hp.
  - intros [Hc Hd]%andb_prop.
    destruct (digit_facts c Hc) as (_ & _ & _ & Hu & _).
    rewrite Hu, Hp, (IH c Hu Hd). reflexivity.
Qed.

Lemma span_all_digits (d : string) :
  all_chars is_digit d = true -> span_digits d = (d, "").
Proof.
  induction d as [|c d IH]; cbn; [reflexivity|].
  intros [Hc Hd]%andb_prop. now rewrite Hc, (IH Hd).
Qed.

Lemma lstrip_length (p : ascii -> bool) (s : string) :
  (strlen (lstrip_with p s) <= strlen s)%N.
Proof.
  unfold strlen. induction s as [|c s IH]; cbn [lstrip_with]; [lia|].
  destruct (p c); [|lia]. cbn [String.length]. lia.
Qed.



Lemma float_of_digits (d : string) :
  d <> "" -> all_chars is_digit d = true -> (strlen d <= MAX_DIGITS)%N ->
  float_of_str d = Ok (of_decimal false (digits_value 0 d) 0).
Proof.
  intros Hne Hd Hlen. unfold float_of_str, to_ascii.
  rewrite (digits_ascii d Hd), (digits_no_underscore zero d eq_refl Hd).
  assert (Hc : rstrip_with is_c_space (lstrip_with is_c_space d) = d).
  { apply strip_fixed. revert Hd. apply all_chars_impl. intros c Hc.
    destruct (digit_facts c Hc) as (_ & _ & _ & _ & ->). reflexivity. }
  rewrite Hc. unfold ascii_strtod, dg_strtod.
  assert (Es : take_sign d = (false, d)).
  { destruct d as [|a r]; [reflexivity|]. cbn in Hd.
    apply andb_prop in Hd as [Ha _].
    destruct (digit_more_facts a Ha) as (_ & _ & Hm & Hp & _).
    cbn. now rewrite Hm, Hp. }
  rewrite Es, (span_all_digits d Hd).
  assert (Ea : d ++ "" = d).
  { clear. induction d as [|c d IH]; cbn; [reflexivity | now rewrite IH]. }
  rewrite Ea. destruct d as [|a r] eqn:Ed; [now elim Hne|]. rewrite <- Ed in *.
  assert (Hn : (match lstrip_with is_zero_digit d with
                | "" => strlen (lstrip_with is_zero_digit "")
                | String _ _ => strlen (lstrip_with is_zero_digit d) + strlen ""
                end <= strlen d)%N).
  { pose proof (lstrip_length is_zero_digit d).
    destruct (lstrip_with is_zero_digit d); unfold strlen in *;
      cbn [lstrip_with String.length] in *; lia. }
  replace (MAX_DIGITS <? _)%N with false
    by (symmetry; apply N.ltb_ge; lia).
  replace (MAX_DIGITS <? strlen "")%N with false by reflexivity.
  cbn [orb read_exponent]. reflexivity.
Qed.



(** *** Exact shifts and exact conversions *)

(** Shifting out zeros loses nothing. *)
Lemma shr_iter_exact (m0 : Z) (j : nat) :
  0 <= m0 ->
  Nat.iter j shr_1 (Build_shr_record (m0 * 2 ^ Z.of_nat j) false false) =
  Build_shr_record m0 false false.
Proof.
  intros Hm. pose proof (pow2_pos (Z.of_nat j) ltac:(lia)) as HP.
  destruct (shr_iter (m0 * 2 ^ Z.of_nat j) j ltac:(nia)) as (b & hr & H).
  cbv zeta in H.
  destruct (Nat.iter j shr_1 _) as [m r s]. cbn [shr_m shr_r shr_s] in H.
  destruct H as (Hm' & Hb & Hb2 & Hhr & Ho & Hs).
  set (P := 2 ^ Z.of_nat j) in *. clearbody P.
  assert (Er : r = false).
  { destruct r; [|reflexivity]. exfalso.
    assert (P * (2 * m0 - 2 * m - 1) = 2 * b) by lia.
    assert (0 <= 2 * m0 - 2 * m - 1) by nia.
    assert (2 * m0 - 2 * m - 1 < 1) by nia. lia. }
  subst r.
  assert (Em : m = m0).
  { assert (P * (m0 - m) = b) by lia.
    assert (0 <= m0 - m) by nia. assert (m0 - m < 1) by nia. lia. }
  subst m. assert (b = 0) by lia. subst b. now rewrite Hs.
Qed.

(** A mantissa that is a canonical one with zeros behind it is rounded to
    the canonical one. *)
Lemma binary_round_aux_exact_shift (sx : bool) (mx m : positive) (e k : Z) :
  0 <= k -> Zpos mx = Zpos m * 2 ^ k ->
  fexp prec emax (Zpos (digits2_pos m) + (e + k)) = e + k ->
  binary_round_aux prec emax sx (Zpos mx) e loc_Exact =
  if e + k <=? emax - prec then S754_finite sx m (e + k) else S754_infinity sx.
Proof.
  intros Hk Hv Hc.
  assert (Hd : Zpos (digits2_pos mx) = Zpos (digits2_pos m) + k).
  { apply digits_unique. rewrite Hv.
    pose proof (digits_bounds m) as [Hl Hu].
    replace (Zpos (digits2_pos m) + k - 1)
      with (Zpos (digits2_pos m) - 1 + k) by lia.
    rewrite !Z.pow_add_r by lia.
    pose proof (pow2_pos k Hk). nia. }
  unfold binary_round_aux, shr_fexp. cbn [Zdigits2 shr_record_of_loc].
  rewrite Hd.
  replace (Zpos (digits2_pos m) + k + e) with (Zpos (digits2_pos m) + (e + k))
    by lia.
  rewrite Hc. replace (e + k - e) with k by lia.
  rewrite shr_nat by exact Hk. rewrite Hv.
  pose proof (shr_iter_exact (Zpos m) (Z.to_nat k) ltac:(lia)) as Hx.
  rewrite Z2Nat.id in Hx by exact Hk. rewrite Hx.
  cbn [shr_m loc_of_shr_record round_nearest_even Zdigits2 shr_record_of_loc].
  rewrite Hc, Z.sub_diag. reflexivity.
Qed.

(** [float(n)] is exact on the integral value of a double whose exponent is
    not negative. *)
Lemma float_of_int_integral (s : bool) (m : positive) (e : Z) :
  bounded prec emax m e = true -> 0 <= e ->
  float_of_int (if s then - (Zpos m * 2 ^ e) else Zpos m * 2 ^ e) =
  Ok (S754_finite s m e).
Proof.
  intros [Hc He]%bounded_spec H0.
  pose proof (pow2_pos e H0) as HP.
  destruct (Zpos m * 2 ^ e) as [|z|z] eqn:Ez; try lia.
  assert (Hd : Zpos (digits2_pos z) = Zpos (digits2_pos m) + e).
  { apply digits_unique. rewrite <- Ez.
    pose proof (digits_bounds m) as [Hl Hu].
    replace (Zpos (digits2_pos m) + e - 1)
      with (Zpos (digits2_pos m) - 1 + e) by lia.
    rewrite !Z.pow_add_r by lia. nia. }
  assert (R : binary_round prec emax s z 0 = S754_finite s m e).
  { unfold binary_round, shl_align. rewrite Z.add_0_r, Hd, Hc, Z.sub_0_r.
    assert (E : binary_round_aux prec emax s (Zpos z) 0 loc_Exact =
                S754_finite s m e).
    { rewrite (binary_round_aux_exact_shift s z m 0 e H0 (eq_sym Ez)) by exact Hc.
      cbn [Z.add].
      destruct (Z.leb_spec e (emax - prec)) as [|Hlt]; [reflexivity|].
      change (emax - prec) with 971 in Hlt. lia. }
    destruct e; try lia; exact E. }
  unfold float_of_int, binary_normalize.
  destruct s; cbn [Z.opp]; rewrite R; reflexivity.
Qed.

(** [float(n)] is exact below [2^53]. *)
Lemma float_of_int_small (t : Z) :
  t <> 0 -> Z.abs t < 2 ^ 53 ->
  exists my ey,
    float_of_int t = Ok (S754_finite (t <? 0) my ey) /\
    bounded prec emax my ey = true /\
    int_of_float (S754_finite (t <? 0) my ey) = Ok t.
Proof.
  intros Hnz Hlt. pose proof (float_of_int_rounds t Hnz) as H.
  destruct (float_of_int t) as [y|er].
  - destruct H as [Hf Hr].
    destruct y as [sy|sy| |sy my ey]; try discriminate.
    + now elim (rounds_to_not_zero _ sy _ _ Hr).
    + destruct Hr as (-> & Hb & Hr). exists my, ey.
      split; [reflexivity|]. split; [exact Hb|].
      rewrite Z2Pos.id in Hr by lia. cbn [int_of_float].
      destruct (Z.leb_spec 0 ey) as [H0|H0].
      * destruct Hr as [Hbd Hlo]. rewrite Z.sub_0_r in Hbd, Hlo.
        specialize (Hlo ltac:(lia)).
        assert (ey = 0).
        { destruct (Z.eq_dec ey 0) as [|Hne]; [assumption|]. exfalso.
          assert (2 ^ 1 <= 2 ^ ey) by (apply Z.pow_le_mono_r; lia).
          change (2 ^ 1) with 2 in *.
          change (2 ^ 54 - 1) with (2 * 2 ^ 53 - 1) in Hlo. nia. }
        subst ey. change (2 ^ 0) with 1 in *. f_equal.
        destruct (Z.ltb_spec t 0); lia.
      * rewrite Z.sub_0_l in Hr. pose proof (pow2_pos (- ey) ltac:(lia)).
        rewrite Hr, Z.div_mul by lia. f_equal.
        destruct (Z.ltb_spec t 0); lia.
  - destruct H as [_ H]. exfalso.
    assert (2 ^ 53 <= (2 ^ 54 - 1) * 2 ^ 970) by (vm_compute; discriminate).
    lia.
Qed.

(** The integral part of a double converts back to a float without loss:
    [int(float(int(x))) = int(x)], and [float(int(x))] does not overflow. *)
Lemma int_float_int (s : bool) (m : positive) (e : Z) :
  bounded prec emax m e = true ->
  exists t y,
    int_of_float (S754_finite s m e) = Ok t /\
    float_of_int t = Ok y /\ int_of_float y = Ok t /\
    valid_binary prec emax y = true /\
    (0 <= e -> y = S754_finite s m e).
Proof.
  intros Hb. pose proof Hb as [Hm He]%bounded_mantissa.
  cbn [int_of_float]. destruct (Z.leb_spec 0 e) as [H0|H0].
  - eexists _, (S754_finite s m e). split; [reflexivity|].
    rewrite (float_of_int_integral s m e Hb H0).
    cbn [int_of_float valid_binary].
    destruct (Z.leb_spec 0 e); [|lia]. auto.
  - pose proof (pow2_pos (- e) ltac:(lia)) as HP.
    assert (Ha : 0 <= Zpos m / 2 ^ (- e) <= Zpos m).
    { split; [apply Z.div_pos; lia | apply Z.div_le_upper_bound; nia]. }
    set (a := Zpos m / 2 ^ (- e)) in *.
    destruct (Z.eq_dec a 0) as [E0|Hnz].
    + rewrite E0. exists 0, (S754_zero false).
      destruct s; repeat split; try reflexivity; lia.
    + destruct (float_of_int_small (if s then - a else a))
        as (my & ey & Ey & Hby & Hi).
      { destruct s; lia. } { destruct s; lia. }
      eexists _, _. split; [reflexivity|]. split; [exact Ey|].
      split; [exact Hi|]. split; [exact Hby | lia].
Qed.

(** *** From [tvl_wei] back to a float *)

(** The float that [tvl_eth * WEI_PER_ETH] gives is a zero, a double in
    canonical form or an infinity when [tvl_eth] is finite. *)
Lemma tvl_product (s : bool) (m : positive) (e : Z) :
  let p := float_mul (S754_finite s m e) (S754_finite false 7812500000000000 7) in
  p = S754_zero s \/ p = S754_infinity s \/
  exists m1 e1, p = S754_finite s m1 e1 /\ bounded prec emax m1 e1 = true.
Proof.
  cbv zeta. pose proof (float_mul_1e18 s m e) as Hr.
  destruct (float_mul _ _) as [s1|s1| |s1 m1 e1]; cbn [rounds_to] in Hr.
  - destruct Hr as [-> _]. now left.
  - destruct Hr as [-> _]. right. now left.
  - contradiction.
  - destruct Hr as (-> & Hb & _). right. right. now exists m1, e1.
Qed.

(** What [int] gives on a zero or on a double in canonical form, and how it
    converts back: the sign is kept, and nothing overflows. *)
Lemma int_then_float (p : float) :
  valid_binary prec emax p = true -> is_finite p = true ->
  exists t y,
    int_of_float p = Ok t /\ float_of_int t = Ok y /\ int_of_float y = Ok t /\
    Z.abs t <= (2 ^ 53 - 1) * 2 ^ 971 /\
    (is_negative p = false -> 0 <= t) /\ (is_positive p = false -> t <= 0) /\
    (t = 0 /\ y = S754_zero false \/
     exists my ey, y = S754_finite (t <? 0) my ey /\
       bounded prec emax my ey = true).
Proof.
  intros Hv Hf. destruct p as [s|s| |s m e]; try discriminate.
  - exists 0, (S754_zero false).
    split; [reflexivity|]. split; [reflexivity|]. split; [reflexivity|].
    split; [vm_compute; discriminate|].
    split; [lia|]. split; [lia|]. now left.
  - cbn [valid_binary] in Hv.
    destruct (int_of_float_bounded s m e Hv) as (a & Ea & Ha).
    destruct (int_float_int s m e Hv) as (t & y & Et & Ey & Ei & Hvy & _).
    rewrite Ea in Et. injection Et as <-.
    exists (if s then - a else a), y.
    split; [exact Ea|]. split; [exact Ey|]. split; [exact Ei|].
    split; [destruct s; lia|].
    split; [destruct s; cbn [is_negative]; [discriminate | lia]|].
    split; [destruct s; cbn [is_positive]; [lia | discriminate]|].
    set (t := if s then - a else a) in *.
    destruct (Z.eq_dec t 0) as [E0|Hnz].
    + left. split; [exact E0|]. rewrite E0 in Ey.
      change (float_of_int 0) with (@Ok float (S754_zero false)) in Ey.
      now injection Ey.
    + right. pose proof (float_of_int_rounds t Hnz) as H. rewrite Ey in H.
      destruct H as [Hfy Hr].
      destruct y as [sy|sy| |sy my ey]; try discriminate.
      * now elim (rounds_to_not_zero _ sy _ _ Hr).
      * destruct Hr as (-> & Hb & _). eauto.
Qed.

(** X10: [tvl_wei] is the integral part of a double: converting it back to a
    float, as [tvl_wei * apy] does, cannot overflow and loses nothing, and
    its absolute value is at most [(2^53 - 1) * 2^971], the largest
    double. *)
Theorem tvl_wei_converts_exactly (tvl_eth : float) (t : Z)
    (H : tvl_wei_of tvl_eth = Ok t) :
  exists y,
    float_of_int t = Ok y /\ int_of_float y = Ok t /\
    Z.abs t <= (2 ^ 53 - 1) * 2 ^ 971.
Proof.
  unfold tvl_wei_of, float_mul_int in H.
  rewrite wei_per_eth_float in H. cbn [bind] in H.
  assert (Hp : exists p, int_of_float p = Ok t /\
             valid_binary prec emax p = true /\ is_finite p = true).
  { destruct tvl_eth as [s|s| |s m e].
    - exists (S754_zero s). split; [exact H|]. split; reflexivity.
    - discriminate.
    - discriminate.
    - destruct (tvl_product s m e) as [E | [E | (m1 & e1 & E & Hb)]];
        cbv zeta in E; rewrite E in H.
      + exists (S754_zero s). auto.
      + discriminate.
      + exists (S754_finite s m1 e1). auto. }
  destruct Hp as (p & Ep & Hv & Hf).
  destruct (int_then_float p Hv Hf) as (t' & y & Et & Ey & Ei & Hb & _).
  rewrite Ep in Et. injection Et as <-. eauto.
Qed.

Lemma tvl_wei_converts_exactly_witness :
  exists y,
    float_of_int (10 ^ 21) = Ok y /\ int_of_float y = Ok (10 ^ 21) /\
    Z.abs (10 ^ 21) <= (2 ^ 53 - 1) * 2 ^ 971.
Proof.
  apply (tvl_wei_converts_exactly (S754_finite false 8796093022208000 (-43))).
  vm_compute. reflexivity.
Defined.

(** *** An APY of one hundred percent *)

(** Multiplying a double by [1.0] gives it back. *)
Lemma float_mul_one (s : bool) (m : positive) (e : Z) :
  bounded prec emax m e = true ->
  float_mul (S754_finite s m e) (S754_finite false 4503599627370496 (-52)) =
  S754_finite s m e.
Proof.
  intros [Hc He]%bounded_spec. unfold float_mul. cbn [SFmul].
  rewrite xorb_false_r.
  rewrite (binary_round_aux_exact_shift s _ m (e + -52) 52).
  - replace (e + -52 + 52) with e by lia.
    destruct (Z.leb_spec e (emax - prec)) as [|Hlt]; [reflexivity|].
    change (emax - prec) with 971 in Hlt. lia.
  - lia.
  - rewrite Pos2Z.inj_mul. reflexivity.
  - replace (e + -52 + 52) with e by lia. exact Hc.
Qed.

(** X11: with an APY of [100%] the annual rewards are [tvl_wei] itself, whatever
    the TVL: no wei is lost in [int(tvl_wei * apy)]. *)
Theorem full_apy_keeps_tvl_wei (tvl_eth : float) (t : Z)
    (H : tvl_wei_of tvl_eth = Ok t) :
  parse_percent "100%" = Ok (S754_finite false 4503599627370496 (-52)) /\
  rates tvl_eth (S754_finite false 4503599627370496 (-52)) =
    Ok (t, t, t / 31536000).
Proof.
  split; [vm_compute; reflexivity|].
  pose proof H as H'. unfold tvl_wei_of, float_mul_int in H'.
  rewrite wei_per_eth_float in H'. cbn [bind] in H'.
  assert (Hp : exists p, int_of_float p = Ok t /\
             valid_binary prec emax p = true /\ is_finite p = true).
  { destruct tvl_eth as [s|s| |s m e].
    - exists (S754_zero s). split; [exact H'|]. split; reflexivity.
    - discriminate.
    - discriminate.
    - destruct (tvl_product s m e) as [E | [E | (m1 & e1 & E & Hb)]];
        cbv zeta in E; rewrite E in H'.
      + exists (S754_zero s). auto.
      + discriminate.
      + exists (S754_finite s m1 e1). auto. }
  destruct Hp as (p & Ep & Hv & Hf).
  destruct (int_then_float p Hv Hf)
    as (t' & y & Et & Ey & Ei & _ & _ & _ & Hy).
  rewrite Ep in Et. injection Et as <-.
  unfold rates. rewrite H. cbn [bind].
  unfold annual_rewards_wei_of, int_mul_float. rewrite Ey. cbn [bind].
  assert (Em : float_mul y (S754_finite false 4503599627370496 (-52)) = y
               \/ t = 0 /\ y = S754_zero false).
  { destruct Hy as [[E0 ->] | (my & ey & -> & Hb)].
    - right. split; [exact E0 | reflexivity].
    - left. apply float_mul_one. exact Hb. }
  destruct Em as [-> | [-> ->]].
  - rewrite Ei. cbn [bind]. rewrite reward_rate_total. reflexivity.
  - reflexivity.
Qed.

Lemma full_apy_keeps_tvl_wei_witness :
  parse_percent "100%" = Ok (S754_finite false 4503599627370496 (-52)) /\
  rates (S754_finite false 8796093022208000 (-43))
        (S754_finite false 4503599627370496 (-52)) =
    Ok (10 ^ 21, 10 ^ 21, 10 ^ 21 / 31536000).
Proof.
  apply (full_apy_keeps_tvl_wei (S754_finite false 8796093022208000 (-43))).
  vm_compute. reflexivity.
Defined.

(** *** Finite inputs *)

Lemma max_int_nonneg : 0 <= 0 <= (2 ^ 53 - 1) * 2 ^ 971.
Proof. split; [reflexivity | vm_compute; intros H; discriminate H]. Qed.

(** The second product and its integral part, from a [tvl_wei] that has
    been converted to the float [y]. *)
Lemma annual_stage (t : Z) (y : float) (sa : bool) (ma : positive) (ea : Z) :
  float_of_int t = Ok y ->
  (t = 0 /\ y = S754_zero false \/
   exists my ey, y = S754_finite (t <? 0) my ey /\
     bounded prec emax my ey = true) ->
  bounded prec emax ma ea = true ->
  if is_finite (float_mul y (S754_finite sa ma ea))
  then exists a',
    annual_rewards_wei_of t (S754_finite sa ma ea) =
      Ok (if xorb (t <? 0) sa then - a' else a') /\
    0 <= a' <= (2 ^ 53 - 1) * 2 ^ 971
  else annual_rewards_wei_of t (S754_finite sa ma ea) = Raise OverflowError.
Proof.
  intros Ey Hy Hb. unfold annual_rewards_wei_of, int_mul_float.
  rewrite Ey. cbn [bind].
  destruct Hy as [[-> ->] | (my & ey & -> & Hby)].
  - cbn [float_mul SFmul is_finite int_of_float]. exists 0.
    split; [destruct (xorb _ _); reflexivity | exact max_int_nonneg].
  - pose proof Hby as [Hcy _]%bounded_spec.
    pose proof Hb as [Hca _]%bounded_spec.
    pose proof (float_mul_rounds (t <? 0) sa my ma ey ea Hcy Hca) as Hr.
    destruct (float_mul (S754_finite (t <? 0) my ey) (S754_finite sa ma ea))
      as [s2|s2| |s2 m2 e2]; cbn [rounds_to is_finite] in *.
    + exists 0. split; [destruct (xorb _ _); reflexivity | exact max_int_nonneg].
    + reflexivity.
    + destruct Hr.
    + destruct Hr as (-> & Hb2 & _).
      destruct (int_of_float_bounded (xorb (t <? 0) sa) m2 e2 Hb2)
        as (a & -> & Ha).
      exists a. split; [reflexivity | exact Ha].
Qed.

(** The float that [tvl_eth * WEI_PER_ETH] gives for a finite [tvl_eth]:
    valid, with the sign of [tvl_eth]. *)
Lemma tvl_stage (tvl_eth : float) :
  is_finite tvl_eth = true ->
  exists p,
    float_mul_int tvl_eth WEI_PER_ETH = Ok p /\
    valid_binary prec emax p = true /\
    (is_finite p = false -> tvl_wei_of tvl_eth = Raise OverflowError) /\
    (is_negative tvl_eth = false -> is_negative p = false) /\
    (is_positive tvl_eth = false -> is_positive p = false) /\
    tvl_wei_of tvl_eth = int_of_float p.
Proof.
  intros Hf. unfold tvl_wei_of, float_mul_int.
  rewrite wei_per_eth_float. cbn [bind].
  eexists. split; [reflexivity|].
  destruct tvl_eth as [s|s| |s m e]; try discriminate.
  - cbn [float_mul SFmul]. repeat split; discriminate.
  - destruct (tvl_product s m e) as [E | [E | (m1 & e1 & E & Hb)]];
      cbv zeta in E; rewrite E; cbn [valid_binary is_finite int_of_float].
    + repeat split; discriminate.
    + repeat split; try discriminate; destruct s; auto.
    + repeat split; try discriminate; try exact Hb; destruct s; auto.
Qed.

(** X12: with a finite TVL and a finite APY the only error is [OverflowError],
    and the three values of a run that succeeds are at most
    [(2^53 - 1) * 2^971] in absolute value, the largest double: they have
    309 digits at most. *)
Theorem finite_inputs_bounded_or_overflow (tvl_eth apy : float)
    (Ht : is_finite tvl_eth = true) (Ha : is_finite apy = true)
    (Hv : valid_binary prec emax apy = true) :
  match rates tvl_eth apy with
  | Ok (t, a, r) =>
      Z.abs t <= (2 ^ 53 - 1) * 2 ^ 971 /\
      Z.abs a <= (2 ^ 53 - 1) * 2 ^ 971 /\
      Z.abs r <= Z.abs a
  | Raise e => e = OverflowError
  end.
Proof.
  assert (Hrate : forall a, Z.abs (a / 31536000) <= Z.abs a).
  { intros a. destruct (Z.le_gt_cases 0 a).
    - pose proof (Z.div_pos a 31536000 ltac:(lia) ltac:(lia)).
      pose proof (Z.div_le_upper_bound a 31536000 a ltac:(lia) ltac:(lia)).
      lia.
    - assert (a / 31536000 < 0) by (apply Z.div_lt_upper_bound; lia).
      pose proof (Z.div_le_lower_bound a 31536000 a ltac:(lia) ltac:(lia)).
      lia. }
  destruct (tvl_stage tvl_eth Ht) as (p & _ & Hvp & Hinf & _ & _ & Et).
  unfold rates. destruct (is_finite p) eqn:Hfp.
  2:{ rewrite (Hinf eq_refl). reflexivity. }
  destruct apy as [sa|sa| |sa ma ea];
    [ | discriminate Ha | discriminate Ha | ];
    destruct (int_then_float p Hvp Hfp)
      as (t & y & Ep & Ey & _ & Hbt & _ & _ & Hy);
    rewrite Et, Ep; cbn [bind].
  - (* a zero APY *)
    unfold annual_rewards_wei_of, int_mul_float. rewrite Ey. cbn [bind].
    assert (E0 : int_of_float (float_mul y (S754_zero sa)) = Ok 0).
    { destruct Hy as [[_ ->] | (my & ey & -> & _)]; reflexivity. }
    rewrite E0. cbn [bind]. rewrite reward_rate_total. cbn [bind].
    split; [exact Hbt|]. split; [exact (proj2 max_int_nonneg) | reflexivity].
  - cbn [valid_binary] in Hv.
    pose proof (annual_stage t y sa ma ea Ey Hy Hv) as H.
    destruct (is_finite (float_mul y (S754_finite sa ma ea))).
    + destruct H as (a' & -> & Ha'). cbn [bind].
      rewrite reward_rate_total. cbn [bind].
      split; [exact Hbt|]. split; [destruct (xorb _ _); lia | apply Hrate].
    + rewrite H. reflexivity.
Qed.

Lemma finite_inputs_bounded_or_overflow_witness :
  match rates (S754_finite false 8796093022208000 (-43))
              (S754_finite false 5764607523034235 (-56)) with
  | Ok (t, a, r) =>
      Z.abs t <= (2 ^ 53 - 1) * 2 ^ 971 /\
      Z.abs a <= (2 ^ 53 - 1) * 2 ^ 971 /\
      Z.abs r <= Z.abs a
  | Raise e => e = OverflowError
  end.
Proof.
  apply (finite_inputs_bounded_or_overflow
           (S754_finite false 8796093022208000 (-43))
           (S754_finite false 5764607523034235 (-56))); reflexivity.
Defined.

(** X13: for a positive [tvl_eth] and a finite positive [apy]: an
    [OverflowError] when one of the two products is beyond the doubles;
    otherwise the computation completes, no value is negative, and the
    rate is [0] exactly when the annual rewards are below [31536000]. *)
Theorem positive_tvl_rates (tvl_eth apy : float)
    (Hpos : is_positive tvl_eth = true)
    (Hpa : is_positive apy = true) (Hfa : is_finite apy = true)
    (Hv : valid_binary prec emax apy = true) :
  exists p, float_mul_int tvl_eth WEI_PER_ETH = Ok p /\
    if is_finite p
    then exists t y,
      tvl_wei_of tvl_eth = Ok t /\ 0 <= t /\ float_of_int t = Ok y /\
      if is_finite (float_mul y apy)
      then exists a r,
        rates tvl_eth apy = Ok (t, a, r) /\
        0 <= a /\ 0 <= r /\ (r = 0 <-> a < 31536000)
      else rates tvl_eth apy = Raise OverflowError
    else rates tvl_eth apy = Raise OverflowError.
Proof.
  destruct tvl_eth as [s|s| |s m e]; try discriminate;
    destruct s; try discriminate.
  - (* the positive infinity *)
    unfold float_mul_int. rewrite wei_per_eth_float. cbn [bind].
    eexists. split; reflexivity.
  - destruct (tvl_stage (S754_finite false m e) eq_refl)
      as (p & Ep & Hvp & Hinf & Hneg & _ & Et).
    exists p. split; [exact Ep|]. unfold rates.
    destruct (is_finite p) eqn:Hfp.
    2:{ rewrite (Hinf eq_refl). reflexivity. }
    destruct (int_then_float p Hvp Hfp)
      as (t & y & Eip & Ey & _ & _ & Ht0 & _ & Hy).
    specialize (Ht0 (Hneg eq_refl)).
    exists t, y. rewrite Et, Eip. cbn [bind].
    split; [reflexivity|]. split; [exact Ht0|]. split; [exact Ey|].
    destruct apy as [sa|sa| |sa ma ea];
      [discriminate Hpa | discriminate Hfa | discriminate Hpa | ].
    destruct sa; [discriminate Hpa|]. cbn [valid_binary] in Hv.
    pose proof (annual_stage t y false ma ea Ey Hy Hv) as H.
    destruct (is_finite (float_mul y (S754_finite false ma ea))).
    + destruct H as (a' & -> & Ha').
      replace (t <? 0) with false by (symmetry; apply Z.ltb_ge; lia).
      cbn [xorb bind]. rewrite reward_rate_total. cbn [bind].
      exists a', (a' / 31536000). split; [reflexivity|].
      split; [lia|]. split; [apply Z.div_pos; lia|].
      split.
      * intros E0. destruct (Z.lt_ge_cases a' 31536000); [assumption|].
        pose proof (Z.div_le_lower_bound a' 31536000 1 ltac:(lia) ltac:(lia)).
        lia.
      * intros Hlt. apply Z.div_small. lia.
    + rewrite H. reflexivity.
Qed.

Lemma positive_tvl_rates_witness :
  exists p,
    float_mul_int (S754_finite false 8796093022208000 (-43)) WEI_PER_ETH = Ok p /\
    if is_finite p
    then exists t y,
      tvl_wei_of (S754_finite false 8796093022208000 (-43)) = Ok t /\
      0 <= t /\ float_of_int t = Ok y /\
      if is_finite (float_mul y (S754_finite false 5764607523034235 (-56)))
      then exists a r,
        rates (S754_finite false 8796093022208000 (-43))
              (S754_finite false 5764607523034235 (-56)) = Ok (t, a, r) /\
        0 <= a /\ 0 <= r /\ (r = 0 <-> a < 31536000)
      else rates (S754_finite false 8796093022208000 (-43))
                 (S754_finite false 5764607523034235 (-56)) = Raise OverflowError
    else rates (S754_finite false 8796093022208000 (-43))
               (S754_finite false 5764607523034235 (-56)) = Raise OverflowError.
Proof.
  apply (positive_tvl_rates (S754_finite false 8796093022208000 (-43))
           (S754_finite false 5764607523034235 (-56))); reflexivity.
Defined.

(** *** The TVL with its sign changed *)

Lemma binary_round_aux_opp (s : bool) (m e : Z) (l : location) :
  SFopp (binary_round_aux prec emax s m e l) =
  binary_round_aux prec emax (negb s) m e l.
Proof.
  unfold binary_round_aux.
  destruct (shr_fexp prec emax m e l) as [mrs' e'].
  destruct (shr_fexp prec emax _ e' loc_Exact) as [mrs'' e''].
  destruct (shr_m mrs''); [reflexivity| |reflexivity].
  destruct (e'' <=? emax - prec); reflexivity.
Qed.

Lemma float_mul_opp (x y : float) :
  float_mul (SFopp x) y = SFopp (float_mul x y).
Proof.
  unfold float_mul.
  destruct x as [sx|sx| |sx mx ex], y as [sy|sy| |sy my ey];
    cbn [SFopp SFmul]; rewrite ?binary_round_aux_opp;
    try destruct sx; try destruct sy; cbn [negb xorb]; reflexivity.
Qed.

Lemma int_of_float_opp (x : float) :
  int_of_float (SFopp x) =
  match int_of_float x with Ok t => Ok (- t) | Raise e => Raise e end.
Proof.
  destruct x as [s|s| |s m e]; cbn [SFopp int_of_float]; try reflexivity.
  f_equal. destruct s; cbn [negb]; lia.
Qed.

Lemma binary_normalize_opp (z : Z) :
  binary_normalize prec emax (- z) 0 false =
  match z with
  | 0 => S754_zero false
  | _ => SFopp (binary_normalize prec emax z 0 false)
  end.
Proof.
  destruct z as [|p|p]; [reflexivity| |]; cbn [Z.opp];
    unfold binary_normalize, binary_round;
    destruct (shl_align _ _ _) as [mz ez];
    rewrite binary_round_aux_opp; cbn [negb]; reflexivity.
Qed.

Lemma float_of_int_opp (z : Z) :
  z <> 0 ->
  float_of_int (- z) =
  match float_of_int z with Ok y => Ok (SFopp y) | Raise e => Raise e end.
Proof.
  intros Hz. unfold float_of_int. cbv zeta. rewrite binary_normalize_opp.
  destruct z as [|p|p]; [now elim Hz| |];
    destruct (binary_normalize prec emax _ 0 false); reflexivity.
Qed.

Lemma annual_rewards_opp (t : Z) (apy : float) :
  annual_rewards_wei_of (- t) apy =
  match annual_rewards_wei_of t apy with
  | Ok a => Ok (- a)
  | Raise e => Raise e
  end.
Proof.
  unfold annual_rewards_wei_of, int_mul_float.
  destruct (Z.eq_dec t 0) as [->|Hnz].
  - change (float_of_int (- 0)) with (@Ok float (S754_zero false)).
    change (float_of_int 0) with (@Ok float (S754_zero false)).
    cbn [bind]. destruct apy as [s|s| |s m e]; reflexivity.
  - rewrite (float_of_int_opp t Hnz).
    destruct (float_of_int t) as [y|e]; cbn [bind]; [|reflexivity].
    rewrite float_mul_opp. apply int_of_float_opp.
Qed.

Lemma reward_rate_opp (a : Z) :
  reward_rate_wei_per_sec_of (- a) =
  Ok (if a mod 31536000 =? 0
      then - (a / 31536000) else - (a / 31536000) - 1).
Proof.
  rewrite reward_rate_total. f_equal.
  destruct (Z.eqb_spec (a mod 31536000) 0) as [E|E].
  - apply Z.div_opp_l_z; [lia | exact E].
  - apply Z.div_opp_l_nz; [lia | exact E].
Qed.

(** X14: changing the sign of the TVL changes the signs of [tvl_wei] and of
    [annual_rewards_wei] and nothing else of them, and leaves the errors as
    they are; the rate is not the opposite one: it is one less than the
    opposite, unless [annual_rewards_wei] is a multiple of [31536000]. *)
Theorem negated_tvl_rates (tvl_eth apy : float) :
  match rates tvl_eth apy with
  | Ok (t, a, r) =>
      rates (SFopp tvl_eth) apy =
        Ok (- t, - a, if a mod 31536000 =? 0 then - r else - r - 1)
  | Raise e => rates (SFopp tvl_eth) apy = Raise e
  end.
Proof.
  assert (Et : tvl_wei_of (SFopp tvl_eth) =
               match tvl_wei_of tvl_eth with
               | Ok t => Ok (- t)
               | Raise e => Raise e
               end).
  { unfold tvl_wei_of, float_mul_int. rewrite wei_per_eth_float.
    cbn [bind]. rewrite float_mul_opp. apply int_of_float_opp. }
  unfold rates. rewrite Et.
  destruct (tvl_wei_of tvl_eth) as [t|e]; cbn [bind]; [|reflexivity].
  rewrite annual_rewards_opp.
  destruct (annual_rewards_wei_of t apy) as [a|e]; cbn [bind]; [|reflexivity].
  rewrite reward_rate_opp, reward_rate_total. reflexivity.
Qed.

(** *** Where a [ValueError] comes from after the reads *)

(** [int(tvl_wei * apy)] raises [ValueError] on a product that is no
    number: the APY is one, or it is an infinity and [tvl_wei] is [0]. *)
Lemma annual_value_error (t : Z) (y apy : float) :
  valid_binary prec emax apy = true ->
  float_of_int t = Ok y ->
  (t = 0 /\ y = S754_zero false \/
   exists my ey, y = S754_finite (t <? 0) my ey /\
     bounded prec emax my ey = true) ->
  annual_rewards_wei_of t apy = Raise ValueError <->
  is_nan apy = true \/ t = 0 /\ is_finite apy = false.
Proof.
  intros Hv Ey Hy. unfold annual_rewards_wei_of, int_mul_float.
  rewrite Ey. cbn [bind].
  destruct Hy as [[-> ->] | (my & ey & -> & Hby)].
  - destruct apy as [sa|sa| |sa ma ea];
      cbn [float_mul SFmul int_of_float is_nan is_finite].
    + split; [intros H; discriminate H|].
      intros [H | [_ H]]; discriminate H.
    + split; [intros _; right; split; reflexivity | reflexivity].
    + split; [intros _; left; reflexivity | reflexivity].
    + split; [intros H; discriminate H|].
      intros [H | [_ H]]; discriminate H.
  - assert (Hnz : t <> 0).
    { intros ->. change (float_of_int 0) with (@Ok float (S754_zero false)) in Ey.
      discriminate Ey. }
    destruct apy as [sa|sa| |sa ma ea].
    + cbn [float_mul SFmul int_of_float is_nan is_finite].
      split; [intros H; discriminate H|].
      intros [H | [_ H]]; discriminate H.
    + cbn [float_mul SFmul int_of_float is_nan is_finite].
      split; [intros H; discriminate H|].
      intros [H | [H _]]; [discriminate H | now elim Hnz].
    + cbn [float_mul SFmul int_of_float is_nan is_finite].
      split; [intros _; left; reflexivity | reflexivity].
    + cbn [valid_binary] in Hv.
      pose proof Hby as [Hcy _]%bounded_spec.
      pose proof Hv as [Hca _]%bounded_spec.
      pose proof (float_mul_rounds (t <? 0) sa my ma ey ea Hcy Hca) as Hr.
      cbn [is_nan is_finite].
      destruct (float_mul (S754_finite (t <? 0) my ey) (S754_finite sa ma ea))
        as [s2|s2| |s2 m2 e2]; cbn [rounds_to int_of_float] in *.
      * split; [intros H; discriminate H|].
        intros [H | [_ H]]; discriminate H.
      * split; [intros H; discriminate H|].
        intros [H | [_ H]]; discriminate H.
      * destruct Hr.
      * split; [intros H; discriminate H|].
        intros [H | [_ H]]; discriminate H.
Qed.

(** X15: once both inputs are read, a [ValueError] comes from a nan only:
    the TVL is no number, or [tvl_wei] is computed and the APY is no
    number, or [tvl_wei] is [0] and the APY is an infinity, whose product
    with zero is no number. *)
Theorem value_error_from_nan (tvl_eth apy : float)
    (Hv : valid_binary prec emax apy = true) :
  rates tvl_eth apy = Raise ValueError <->
  is_nan tvl_eth = true \/
  exists t, tvl_wei_of tvl_eth = Ok t /\
    (is_nan apy = true \/ t = 0 /\ is_finite apy = false).
Proof.
  destruct (is_finite tvl_eth) eqn:Hf.
  - destruct (tvl_stage tvl_eth Hf) as (p & _ & Hvp & Hinf & _ & _ & Et).
    assert (Hn : is_nan tvl_eth = false)
      by (destruct tvl_eth; [reflexivity | discriminate Hf
                            | discriminate Hf | reflexivity]).
    rewrite Hn. unfold rates. destruct (is_finite p) eqn:Hfp.
    + destruct (int_then_float p Hvp Hfp)
        as (t & y & Ep & Ey & _ & _ & _ & _ & Hy).
      pose proof (annual_value_error t y apy Hv Ey Hy) as Ha.
      rewrite Et, Ep. cbn [bind].
      destruct (annual_rewards_wei_of t apy) as [a|e]; cbn [bind].
      * rewrite reward_rate_total. cbn [bind].
        split; [intros H; discriminate H|].
        intros [H | (t' & E' & H)]; [discriminate H|].
        injection E' as <-. apply (proj2 Ha) in H. discriminate H.
      * split.
        -- intros H. injection H as ->. right. exists t.
           split; [reflexivity | exact (proj1 Ha eq_refl)].
        -- intros [H | (t' & E' & H)]; [discriminate H|].
           injection E' as <-. pose proof (proj2 Ha H) as E.
           injection E as ->. reflexivity.
    + rewrite (Hinf eq_refl). cbn [bind].
      split; [intros H; discriminate H|].
      intros [H | (t' & H & _)]; discriminate H.
  - destruct tvl_eth as [s|s| |s m e];
      [discriminate Hf | | | discriminate Hf].
    + unfold rates, tvl_wei_of, float_mul_int. rewrite wei_per_eth_float.
      cbn [bind float_mul SFmul int_of_float is_nan].
      split; [intros H; discriminate H|].
      intros [H | (t' & H & _)]; discriminate H.
    + split; [intros _; left; reflexivity | reflexivity].
Qed.

Lemma value_error_from_nan_witness :
  rates (S754_zero false) (S754_infinity false) = Raise ValueError <->
  is_nan (S754_zero false) = true \/
  exists t, tvl_wei_of (S754_zero false) = Ok t /\
    (is_nan (S754_infinity false) = true \/
     t = 0 /\ is_finite (S754_infinity false) = false).
Proof.
  apply (value_error_from_nan (S754_zero false) (S754_infinity false)).
  reflexivity.
Defined.

(** *** Whole amounts of ETH *)

Lemma digits_value_nonneg (d : string) (acc : Z) :
  all_chars is_digit d = true -> 0 <= acc -> 0 <= digits_value acc d.
Proof.
  revert acc. induction d as [|c d IH]; intros acc;
    cbn [digits_value all_chars]; [auto|].
  intros [Hc Hd]%andb_prop Hacc. apply (IH _ Hd).
  assert (0 <= digit_val c); [|lia].
  clear - Hc. destruct c as [[] [] [] [] [] [] [] []];
    try discriminate Hc; vm_compute; intros H; discriminate H.
Qed.

(** The doubles of the integers up to [2361], multiplied by [10^18], are
    the exact products: each has a mantissa of 53 bits at most. *)
Lemma whole_eth_table :
  forallb (fun k =>
             match tvl_wei_of (of_decimal false (Z.of_nat k) 0) with
             | Ok t => t =? Z.of_nat k * WEI_PER_ETH
             | Raise _ => false
             end) (seq 0 2362) = true.
Proof. vm_compute. reflexivity. Qed.

(** X16: a TVL written as a whole number of ETH up to [2361] is converted
    to wei exactly; [2363] ETH is not, the double product is 2^18 wei
    off. *)
Theorem whole_eth_tvl_exact (d : string)
    (Hne : d <> "") (Hd : all_chars is_digit d = true)
    (Hlen : (strlen d <= MAX_DIGITS)%N)
    (Hn : digits_value 0 d <= 2361) :
  (exists x, float_of_str (strip d) = Ok x /\
             tvl_wei_of x = Ok (digits_value 0 d * WEI_PER_ETH)) /\
  (exists x, float_of_str (strip "2363") = Ok x /\
             tvl_wei_of x = Ok (2363 * WEI_PER_ETH + 2 ^ 18)).
Proof.
  split.
  - assert (Es : strip d = d).
    { apply strip_fixed. revert Hd. apply all_chars_impl. intros c Hc.
      destruct (digit_more_facts c Hc) as (-> & _). reflexivity. }
    rewrite Es, (float_of_digits d Hne Hd Hlen). eexists. split; [reflexivity|].
    pose proof (digits_value_nonneg d 0 Hd ltac:(lia)) as H0.
    set (n := digits_value 0 d) in *.
    pose proof (proj1 (forallb_forall _ _) whole_eth_table (Z.to_nat n)) as H.
    cbv beta in H. rewrite Z2Nat.id in H by exact H0.
    assert (Hin : In (Z.to_nat n) (seq 0 2362)) by (apply in_seq; lia).
    specialize (H Hin).
    destruct (tvl_wei_of (of_decimal false n 0)) as [t|e];
      [|discriminate H].
    apply Z.eqb_eq in H. now rewrite H.
  - eexists. split; vm_compute; reflexivity.
Qed.

Lemma whole_eth_tvl_exact_witness :
  (exists x, float_of_str (strip "1000") = Ok x /\
             tvl_wei_of x = Ok (digits_value 0 "1000" * WEI_PER_ETH)) /\
  (exists x, float_of_str (strip "2363") = Ok x /\
             tvl_wei_of x = Ok (2363 * WEI_PER_ETH + 2 ^ 18)).
Proof.
  apply (whole_eth_tvl_exact "1000").
  - discriminate.
  - reflexivity.
  - vm_compute. discriminate.
  - vm_compute. discriminate.
Defined.
